(** * PsyFi backend: wallet authentication, sessions and the identity table

    A shallow embedding of the authentication routes
    ([routes/auth]: connect, refresh, disconnect, nonce) together with the
    parts of [RedisService] and [DatabaseService] they call, followed by the
    properties of the challenge/session protocol.

    Conventions of the embedding.
    - Instants are milliseconds since the epoch, as [Z].  Every [Date.now()]
      and every server-side clock ([CURRENT_TIMESTAMP], the Redis clock that
      starts a TTL) is a separate reading supplied by the environment record of
      the handler, one field per read, in program order.
    - The stores are explicit: two tables as lists of rows and the Redis
      keyspace as a [gmap].  Every write of connect, disconnect and the nonce
      route that reaches a store is also appended to a journal, so that the
      order of the writes can be stated.
    - A store call that does not get through (connection lost, time-out) is an
      environment choice as well: a boolean per call.
    - [ethers.verifyMessage] is a parameter, and so is what a JSONB column
      makes of a JSON text; [jsonwebtoken] is modelled symbolically (a token
      is the key it was signed with and its payload).
    - A string is the sequence of its UTF-8 bytes. *)

From Stdlib Require Import ZArith String Ascii List Bool Lia.
From stdpp Require Import base option list gmap strings pretty.

Open Scope string_scope.
Open Scope Z_scope.

(** ** Strings *)

Module Str.

Definition is_digit (c : ascii) : bool :=
  let n := nat_of_ascii c in (48 <=? n)%nat && (n <=? 57)%nat.

Definition is_lower (c : ascii) : bool :=
  let n := nat_of_ascii c in (97 <=? n)%nat && (n <=? 122)%nat.

Definition is_upper (c : ascii) : bool :=
  let n := nat_of_ascii c in (65 <=? n)%nat && (n <=? 90)%nat.

(** [[a-fA-F0-9]] *)
Definition is_hex (c : ascii) : bool :=
  let n := nat_of_ascii c in
  is_digit c || ((97 <=? n)%nat && (n <=? 102)%nat)
             || ((65 <=? n)%nat && (n <=? 70)%nat).

(** The digits of radix 36 as [Number.prototype.toString(36)] writes them. *)
Definition is_base36 (c : ascii) : bool := is_digit c || is_lower c.

Definition is_alnum (c : ascii) : bool := is_digit c || is_lower c || is_upper c.

Fixpoint all (p : ascii -> bool) (s : string) : bool :=
  match s with
  | EmptyString => true
  | String c s' => p c && all p s'
  end.

Definition lower_ascii (c : ascii) : ascii :=
  if is_upper c then ascii_of_nat (nat_of_ascii c + 32) else c.

(** [String.prototype.toLowerCase] on the ASCII range, which is where wallet
    addresses live. *)
Fixpoint toLowerCase (s : string) : string :=
  match s with
  | EmptyString => EmptyString
  | String c s' => String (lower_ascii c) (toLowerCase s')
  end.

(** [strip p s] is what follows [p] in [s] when [s] starts with [p]. *)
Fixpoint strip (p s : string) : option string :=
  match p, s with
  | EmptyString, _ => Some s
  | String a p', String b s' => if Ascii.eqb a b then strip p' s' else None
  | String _ _, EmptyString => None
  end.

(** The longest run of decimal digits at the head of [s]: a greedy [\d+]. *)
Fixpoint digits (s : string) : string :=
  match s with
  | EmptyString => EmptyString
  | String c s' => if is_digit c then String c (digits s') else EmptyString
  end.

Definition digit_value (c : ascii) : Z := Z.of_nat (nat_of_ascii c) - 48.

Fixpoint parse_from (acc : Z) (s : string) : Z :=
  match s with
  | EmptyString => acc
  | String c s' => parse_from (10 * acc + digit_value c) s'
  end.

(** [Number.parseInt(s, 10)] on a string of decimal digits. *)
Definition parseInt (s : string) : Z := parse_from 0 s.

(** A byte that continues a UTF-8 sequence, [10xxxxxx]. *)
Definition is_continuation (c : ascii) : bool :=
  let n := nat_of_ascii c in (128 <=? n)%nat && (n <? 192)%nat.

(** The number of characters of a string, which is what a [VARCHAR(n)]
    column counts. *)
Fixpoint char_length (s : string) : nat :=
  match s with
  | EmptyString => O
  | String c s' => ((if is_continuation c then 0 else 1) + char_length s')%nat
  end.

(** The string contains the character U+0000. *)
Definition has_nul (s : string) : bool :=
  negb (all (fun c => negb (Nat.eqb (nat_of_ascii c) 0)) s).

(** [s.substr(from, len)] for non-negative arguments. *)
Definition substr (from len : nat) (s : string) : string := substring from len s.

(** [[A-Za-z0-9_]] *)
Definition is_word (c : ascii) : bool := is_alnum c || Ascii.eqb c "_".

(** The ASCII white space that [parseInt] skips: TAB, LF, VT, FF, CR, SP. *)
Definition is_space (c : ascii) : bool :=
  let n := nat_of_ascii c in ((9 <=? n)%nat && (n <=? 13)%nat) || Nat.eqb n 32.

Fixpoint skip_spaces (s : string) : string :=
  match s with
  | EmptyString => EmptyString
  | String c s' => if is_space c then skip_spaces s' else s
  end.

(** [Number.parseInt(s, 10)] on any ASCII string: leading white space, an
    optional sign, then the longest run of digits; [None] is [NaN].  The
    result is exact below 2^53. *)
Definition parseInt10 (s : string) : option Z :=
  let t := skip_spaces s in
  let (negative, body) :=
    match t with
    | String c rest =>
        if Ascii.eqb c "-" then (true, rest)
        else if Ascii.eqb c "+" then (false, rest)
        else (false, t)
    | EmptyString => (false, t)
    end in
  match digits body with
  | EmptyString => None
  | ds => Some (if negative then - parseInt ds else parseInt ds)
  end.

End Str.

(** ** Utility functions of the auth routes *)

(** [/Timestamp: (\d+)/] tried at the head of [message]: the capture group. *)
Definition match_here (message : string) : option string :=
  match Str.strip "Timestamp: " message with
  | Some rest =>
      match Str.digits rest with
      | EmptyString => None
      | ds => Some ds
      end
  | None => None
  end.

(** [message.match(/Timestamp: (\d+)/)]: the capture group at the leftmost
    position where the pattern matches. *)
Fixpoint timestampMatch (message : string) : option string :=
  match match_here message with
  | Some ds => Some ds
  | None =>
      match message with
      | EmptyString => None
      | String _ tail => timestampMatch tail
      end
  end.



Definition not_T (c : ascii) : bool := negb (Ascii.eqb c "T").

Definition extractTimestampFromMessage (message : string) : Z :=
  match timestampMatch message with
  | Some ds => Str.parseInt ds
  | None => 0
  end.

(** [Math.random().toString(36).substr(2, 15)].  The argument is the radix-36
    rendering of the random double, that is ["0"] or ["0."] followed by
    radix-36 digits. *)
Definition generateNonce (random36 : string) : string := Str.substr 2 15 random36.

(** [`sess_${Date.now()}_${Math.random().toString(36).substr(2, 9)}`] *)
Definition generateSessionId (now : Z) (random36 : string) : string :=
  "sess_" +:+ pretty now +:+ "_" +:+ Str.substr 2 9 random36.

(** What [Math.random().toString(36)] can look like. *)
Definition random_rendering (r : string) : bool :=
  String.eqb r "0" ||
  match Str.strip "0." r with
  | Some ds => negb (String.eqb ds "") && Str.all Str.is_base36 ds
  | None => false
  end.

(** [/^0x[a-fA-F0-9]{40}$/], the pattern of the connect schema and of the
    nonce route. *)
Definition wallet_pattern (walletAddress : string) : bool :=
  match Str.strip "0x" walletAddress with
  | Some hex => Nat.eqb (String.length hex) 40 && Str.all Str.is_hex hex
  | None => false
  end.

(** ** Rows, cache entries and the world *)

(** A row of [users] (init.sql).  [username] and [email] are nullable. *)
Record UserRow := mkUser {
  user_id : Z;
  user_wallet_address : string;
  user_username : option string;
  user_email : option string;
  user_preferences : string;
  user_created_at : Z;
  user_updated_at : Z
}.

(** A row of [api_sessions]. *)
Record SessionRow := mkSession {
  session_id : string;
  session_user_id : Z;
  session_wallet_address : string;
  session_expires_at : Z
}.

(** The object handed to [cacheUserSession]: it carries no expiry. *)
Record SessionPayload := mkPayload {
  payload_userId : Z;
  payload_walletAddress : string;
  payload_username : option string
}.

(** A Redis string value.  [JsonText doc] stands for the text
    [JSON.stringify(doc)]; [Text s] is any other string, such as a nonce. *)
Inductive RedisValue :=
  | Text (s : string)
  | JsonText (doc : SessionPayload).

(** What [getJSON] returns for a string that is not empty.  [Object doc] is
    the object that [JSON.parse] rebuilds from the text of [doc].
    [Parse s] stands for the outcome of [JSON.parse(s)] on any other string
    [s]: the number 123 for ["123"], and [null] for a string that the parser
    rejects, the exception being caught inside [getJSON]. *)
Inductive Parsed :=
  | Object (doc : SessionPayload)
  | Parse (s : string).

Coercion Object : SessionPayload >-> Parsed.

(** A key with the instant at which Redis drops it ([None]: no expiry). *)
Record Entry := mkEntry {
  entry_value : RedisValue;
  entry_deadline : option Z
}.

(** Writes that reached a store, in the order they were applied. *)
Inductive Write :=
  | DbUpsertUser (walletAddress : string)
  | DbInsertSession (sessionId : string)
  | DbDeleteSession (sessionId : string)
  | RedisSet (key : string)
  | RedisDel (key : string).

Record World := mkWorld {
  users : list UserRow;
  users_id_seq : Z;
  api_sessions : list SessionRow;
  redis : gmap string Entry;
  journal : list Write
}.

Definition set_users (f : list UserRow -> list UserRow) (w : World) : World :=
  mkWorld (f (users w)) (users_id_seq w) (api_sessions w) (redis w) (journal w).

Definition set_users_id_seq (f : Z -> Z) (w : World) : World :=
  mkWorld (users w) (f (users_id_seq w)) (api_sessions w) (redis w) (journal w).

Definition set_api_sessions (f : list SessionRow -> list SessionRow) (w : World) : World :=
  mkWorld (users w) (users_id_seq w) (f (api_sessions w)) (redis w) (journal w).

Definition set_redis (f : gmap string Entry -> gmap string Entry) (w : World) : World :=
  mkWorld (users w) (users_id_seq w) (api_sessions w) (f (redis w)) (journal w).

Definition log (e : Write) (w : World) : World :=
  mkWorld (users w) (users_id_seq w) (api_sessions w) (redis w) (journal w ++ [e])%list.

(** ** Awaited computations: state plus exceptions *)

Inductive Exn :=
  | JsonWebTokenError (message : string)
  | TokenExpiredError
  | SignatureError
  | PgError (message : string)
  | RedisError.

(** [error instanceof jwt.JsonWebTokenError]; [TokenExpiredError] derives
    from it. *)
Definition instanceof_JsonWebTokenError (e : Exn) : bool :=
  match e with
  | JsonWebTokenError _ | TokenExpiredError => true
  | SignatureError | PgError _ | RedisError => false
  end.

Inductive Result (A : Type) :=
  | Done (a : A)
  | Raise (e : Exn).
Arguments Done {A} a.
Arguments Raise {A} e.

Definition Io (A : Type) : Type := World -> Result A * World.

#[export] Instance io_ret : MRet Io := fun A a w => (Done a, w).

#[export] Instance io_bind : MBind Io := fun A B k m w =>
  match m w with
  | (Done a, w') => k a w'
  | (Raise e, w') => (Raise e, w')
  end.

Definition throw {A} (e : Exn) : Io A := fun w => (Raise e, w).

(** A synchronous call that may throw. *)
Definition lift {A} (r : Result A) : Io A := fun w => (r, w).

Definition modify (f : World -> World) : Io unit := fun w => (Done tt, f w).

Definition gets {A} (f : World -> A) : Io A := fun w => (Done (f w), w).

(** [try { body } catch (error) { handler }] around a whole route: the
    writes made before the throw stay. *)
Definition try_catch {A} (body : Io A) (handler : Exn -> A) : World -> A * World :=
  fun w =>
    match body w with
    | (Done a, w') => (a, w')
    | (Raise e, w') => (handler e, w')
    end.

(** [try { body } catch { return fallback }] inside a service method. *)
Definition recover {A} (body : Io A) (fallback : A) : Io A :=
  fun w =>
    match body w with
    | (Done a, w') => (Done a, w')
    | (Raise _, w') => (Done fallback, w')
    end.

(** ** RedisService *)

Module RedisService.

(** Redis answers for a key up to its deadline: the key is expired once the
    clock of the server is past it. *)
Definition live (now : Z) (e : Entry) : bool :=
  match entry_deadline e with
  | None => true
  | Some d => now <=? d
  end.

(** The client calls; [up] says whether the command gets through and [now] is
    the clock of the Redis server when it runs. *)
Definition client_get (up : bool) (now : Z) (key : string) : Io (option RedisValue) :=
  if up then
    gets (fun w => match redis w !! key with
                   | Some e => if live now e then Some (entry_value e) else None
                   | None => None
                   end)
  else throw RedisError.

Definition client_set (up : bool) (key : string) (value : RedisValue) : Io unit :=
  if up then modify (fun w => log (RedisSet key) (set_redis (insert key (mkEntry value None)) w))
  else throw RedisError.

(** SETEX refuses a non-positive expiry. *)
Definition client_setEx (up : bool) (now : Z) (key : string) (ttl : Z)
    (value : RedisValue) : Io unit :=
  if up && (0 <? ttl) then
    modify (fun w => log (RedisSet key)
                       (set_redis (insert key (mkEntry value (Some (now + ttl * 1000)))) w))
  else throw RedisError.

Definition client_del (up : bool) (key : string) : Io unit :=
  if up then modify (fun w => log (RedisDel key) (set_redis (delete key) w))
  else throw RedisError.

Definition get (up : bool) (now : Z) (key : string) : Io (option RedisValue) :=
  recover (client_get up now key) None.

(** [if (ttl)] is false for a missing [ttl] and for [0]. *)
Definition set (up : bool) (now : Z) (key : string) (value : RedisValue)
    (ttl : option Z) : Io bool :=
  recover
    (match ttl with
     | Some t => if negb (t =? 0) then client_setEx up now key t value
                 else client_set up key value
     | None => client_set up key value
     end;; mret true)
    false.

Definition del (up : bool) (key : string) : Io bool :=
  recover (client_del up key;; mret true) false.

Definition setJSON (up : bool) (now : Z) (key : string) (value : SessionPayload)
    (ttl : option Z) : Io bool :=
  set up now key (JsonText value) ttl.

(** [if (!value) return null], which also catches the empty string, then
    [JSON.parse] with its own catch. *)
Definition getJSON (up : bool) (now : Z) (key : string) : Io (option Parsed) :=
  value ← get up now key;
  match value with
  | None => mret None
  | Some (Text s) => if String.eqb s "" then mret None else mret (Some (Parse s))
  | Some (JsonText doc) => mret (Some (Object doc))
  end.

Definition cacheUserSession (up : bool) (now : Z) (sessionId : string)
    (userData : SessionPayload) (ttl : Z) : Io bool :=
  setJSON up now ("session:" +:+ sessionId) userData (Some ttl).

Definition getCachedUserSession (up : bool) (now : Z) (sessionId : string) :
    Io (option Parsed) :=
  getJSON up now ("session:" +:+ sessionId).

Definition invalidateUserSession (up : bool) (sessionId : string) : Io bool :=
  del up ("session:" +:+ sessionId).

(** The integer a Redis string holds for INCR: the canonical decimal text of
    a signed 64-bit number, and nothing else. *)
Definition redis_integer (s : string) : option Z :=
  let n := match s with
           | String c rest => if Ascii.eqb c "-" then - Str.parseInt rest else Str.parseInt s
           | EmptyString => 0
           end in
  if String.eqb (pretty n) s && (- 2 ^ 63 <=? n) && (n <? 2 ^ 63) then Some n else None.

(** INCR: a key that is absent or past its deadline starts from 0 and gets no
    expiry; a key holding an integer keeps its expiry; any other value, and a
    counter at 2^63 - 1, is an error. *)
Definition client_incr (up : bool) (now : Z) (key : string) : Io Z :=
  if up then
    fun w =>
      let fresh := (Done 1, set_redis (insert key (mkEntry (Text "1") None)) w) in
      match redis w !! key with
      | Some e =>
          if live now e then
            match entry_value e with
            | Text s =>
                match redis_integer s with
                | Some n =>
                    if n + 1 <? 2 ^ 63 then
                      (Done (n + 1),
                       set_redis (insert key (mkEntry (Text (pretty (n + 1)))
                                                (entry_deadline e))) w)
                    else (Raise RedisError, w)
                | None => (Raise RedisError, w)
                end
            | JsonText _ => (Raise RedisError, w)
            end
          else fresh
      | None => fresh
      end
  else throw RedisError.

(** EXPIRE: sets the deadline of a key that exists; a non-positive number of
    seconds deletes the key. *)
Definition client_expire (up : bool) (now : Z) (key : string) (seconds : Z) : Io unit :=
  if up then
    modify (fun w =>
      match redis w !! key with
      | Some e =>
          if live now e then
            if seconds <=? 0 then set_redis (delete key) w
            else set_redis (insert key (mkEntry (entry_value e)
                                          (Some (now + seconds * 1000)))) w
          else w
      | None => w
      end)
  else throw RedisError.

(** The two commands of one [incrementRateLimit] call: whether each gets
    through, and the Redis clock when it runs. *)
Record RateEnv := mkRateEnv {
  rate_incr_up : bool;
  rate_incr_now : Z;
  rate_expire_up : bool;
  rate_expire_now : Z
}.

(** [incrementRateLimit(key, window = 3600)] *)
Definition incrementRateLimit (env : RateEnv) (key : string) (window : option Z) : Io Z :=
  recover
    (current ← client_incr (rate_incr_up env) (rate_incr_now env) key;
     if current =? 1 then
       client_expire (rate_expire_up env) (rate_expire_now env) key (default 3600 window);;
       mret current
     else mret current)
    0.

(** [getRateLimit(key)]: [value ? Number.parseInt(value, 10) : 0], where the
    text of a cached object starts with a brace and parses to [NaN]. *)
Definition getRateLimit (up : bool) (now : Z) (key : string) : Io (option Z) :=
  recover
    (value ← get up now key;
     match value with
     | None => mret (Some 0)
     | Some (Text s) => if String.eqb s "" then mret (Some 0) else mret (Str.parseInt10 s)
     | Some (JsonText _) => mret None
     end)
    (Some 0).

End RedisService.

(** ** DatabaseService *)

Module DatabaseService.

(** SQL [COALESCE] of a parameter and a column. *)
Definition COALESCE {A} (param column : option A) : option A :=
  match param with
  | Some _ => param
  | None => column
  end.

(** [INSERT INTO users ... ON CONFLICT (wallet_address) DO UPDATE SET ...
    RETURNING *]: the row that conflicts on [wallet_address] is updated in
    place, otherwise a row is added with the column defaults.  [nextval] is the
    value drawn from the id sequence and [now] is [CURRENT_TIMESTAMP]. *)
Fixpoint upsert_user (now nextval : Z) (walletAddress : string)
    (username email : option string) (rows : list UserRow) : UserRow * list UserRow :=
  match rows with
  | [] =>
      let row := mkUser nextval walletAddress username email "{}" now now in
      (row, [row])
  | r :: rest =>
      if String.eqb (user_wallet_address r) walletAddress then
        let row := mkUser (user_id r) (user_wallet_address r)
                     (COALESCE username (user_username r))
                     (COALESCE email (user_email r))
                     (user_preferences r) (user_created_at r) now in
        (row, row :: rest)
      else
        let (row, rest') := upsert_user now nextval walletAddress username email rest in
        (row, r :: rest')
  end.

(** What a [VARCHAR(n)] column takes (init.sql): a value of at most [n]
    characters without U+0000, a character that Postgres has in no text
    value.  Postgres cuts excess characters that are all spaces off instead
    of refusing the value; that case is refused here as well. *)
Definition varchar (n : nat) (value : string) : bool :=
  (Str.char_length value <=? n)%nat && negb (Str.has_nul value).

(** A parameter bound to a nullable column; NULL always fits. *)
Definition nullable (column : string -> bool) (param : option string) : bool :=
  match param with
  | Some value => column value
  | None => true
  end.

(** The three parameters of [createUser] against [wallet_address
    VARCHAR(42)], [username VARCHAR(50)] and [email VARCHAR(255)]. *)
Definition users_columns (walletAddress : string) (username email : option string) : bool :=
  varchar 42 walletAddress && nullable (varchar 50) username && nullable (varchar 255) email.

(** The statement fails when a parameter does not fit its column, and then
    no row is touched.  When it runs, the sequence advances whether or not
    the insert ends in the update branch. *)
Definition createUser (up : bool) (now : Z) (walletAddress : string)
    (username email : option string) : Io UserRow :=
  if up then
    if users_columns walletAddress username email then
      fun w =>
        let (row, rows) :=
          upsert_user now (users_id_seq w) walletAddress username email (users w) in
        (Done row,
         log (DbUpsertUser walletAddress)
           (set_users_id_seq (Z.add 1) (set_users (fun _ => rows) w)))
    else throw (PgError "value does not fit the column")
  else throw (PgError "connection").

(** [rows[0]] of [SELECT * FROM users WHERE wallet_address = $1]. *)
Definition find_user (walletAddress : string) (rows : list UserRow) : option UserRow :=
  head (filter (fun r => user_wallet_address r = walletAddress) rows).

Definition getUserByWallet (up : bool) (walletAddress : string) : Io (option UserRow) :=
  if up then gets (fun w => find_user walletAddress (users w))
  else throw (PgError "connection").

Definition has_session (sessionId : string) (rows : list SessionRow) : bool :=
  existsb (fun s => String.eqb (session_id s) sessionId) rows.

Definition has_user_id (id : Z) (rows : list UserRow) : bool :=
  existsb (fun r => user_id r =? id) rows.

(** [INSERT INTO api_sessions ...]: [session_id] is UNIQUE and [user_id]
    REFERENCES [users(id)]. *)
Definition createSession (up : bool) (sessionId : string) (userId : Z)
    (walletAddress : string) (expiresAt : Z) : Io SessionRow :=
  if up then
    fun w =>
      if has_session sessionId (api_sessions w) then
        (Raise (PgError "duplicate key value violates unique constraint"), w)
      else if negb (has_user_id userId (users w)) then
        (Raise (PgError "violates foreign key constraint"), w)
      else
        let row := mkSession sessionId userId walletAddress expiresAt in
        (Done row,
         log (DbInsertSession sessionId) (set_api_sessions (fun rows => (rows ++ [row])%list) w))
  else throw (PgError "connection").

(** A row of the join in [getSession]: [s.*, u.wallet_address, u.username]. *)
Record SessionJoin := mkJoin {
  join_session : SessionRow;
  join_wallet_address : string;
  join_username : option string
}.

(** [... FROM api_sessions s JOIN users u ON s.user_id = u.id
    WHERE s.session_id = $1 AND s.expires_at > CURRENT_TIMESTAMP]. *)
Definition select_session (now : Z) (sessionId : string) (w : World) : list SessionJoin :=
  flat_map
    (fun s =>
       if String.eqb (session_id s) sessionId && (now <? session_expires_at s) then
         map (fun u => mkJoin s (user_wallet_address u) (user_username u))
           (filter (fun u => user_id u = session_user_id s) (users w))
       else [])
    (api_sessions w).

Definition getSession (up : bool) (now : Z) (sessionId : string) : Io (option SessionJoin) :=
  if up then gets (fun w => head (select_session now sessionId w))
  else throw (PgError "connection").

(** [DELETE FROM api_sessions WHERE session_id = $1]. *)
Definition deleteSession (up : bool) (sessionId : string) : Io unit :=
  if up then
    modify (fun w =>
      log (DbDeleteSession sessionId)
        (set_api_sessions (filter (fun s => session_id s ≠ sessionId)) w))
  else throw (PgError "connection").

(** [DELETE FROM api_sessions WHERE expires_at < CURRENT_TIMESTAMP]. *)
Definition cleanupExpiredSessions (up : bool) (now : Z) : Io unit :=
  if up then
    modify (set_api_sessions (filter (fun s => ¬ session_expires_at s < now)))
  else throw (PgError "connection").

(** The [SET] of [updateUserPreferences] on one row. *)
Definition with_preferences (now : Z) (preferences : string) (r : UserRow) : UserRow :=
  mkUser (user_id r) (user_wallet_address r) (user_username r) (user_email r)
    preferences (user_created_at r) now.

(** [UPDATE users SET preferences = $2, updated_at = CURRENT_TIMESTAMP
    WHERE wallet_address = $1 RETURNING *], then [rows[0]].  The parameter is
    the text [JSON.stringify(preferences)], bound to a JSONB column.
    [jsonb text] is what that column makes of a text: [None] when Postgres
    refuses it, as it does for a text with the escape of U+0000, and then the
    statement fails; otherwise the document that the column gives back, which
    is the text in the normal form Postgres keeps (object keys sorted and
    unique, no layout).  A body without preferences binds NULL, which reads
    back as [null], the document kept here for it. *)
Definition updateUserPreferences (jsonb : string -> option string) (up : bool) (now : Z)
    (walletAddress : string) (preferences : option string) : Io (option UserRow) :=
  if up then
    match match preferences with
          | Some text => jsonb text
          | None => Some "null"
          end with
    | Some document =>
        fun w =>
          let rows :=
            map (fun r => if decide (user_wallet_address r = walletAddress)
                          then with_preferences now document r
                          else r)
              (users w) in
          (Done (find_user walletAddress rows), set_users (fun _ => rows) w)
    | None => throw (PgError "invalid input syntax for type json")
    end
  else throw (PgError "connection").

End DatabaseService.

(** ** jsonwebtoken, symbolically *)

Module jwt.

(** The claims the routes sign.  [claim_username] is [None] when the key is
    not in the object (refresh tokens) and [Some None] when it is [null]. *)
Record Claims := mkClaims {
  claim_userId : Z;
  claim_walletAddress : string;
  claim_username : option (option string)
}.

(** Decoded payload: the claims with [iat] and [exp], in seconds. *)
Record Payload := mkPayload {
  payload_claims : Claims;
  payload_iat : Z;
  payload_exp : Z
}.

(** A compact token is either a payload signed under a key, or a string that
    does not decode. *)
Inductive Token :=
  | Jws (key : string) (payload : Payload)
  | Garbled (raw : string).

(** [jwt.sign(claims, secret, { expiresIn })], with [expiresIn] in seconds
    ("1h" is 3600, "7d" is 604800) and [now] the clock read by the library. *)
Definition sign (now : Z) (claims : Claims) (secret : string) (expiresIn : Z) : Token :=
  Jws secret (mkPayload claims (now / 1000) (now / 1000 + expiresIn)).

(** [jwt.verify(token, secret)]: the signature is checked before the expiry,
    and the token is expired once [floor(now / 1000) >= exp]. *)
Definition verify (now : Z) (token : Token) (secret : string) : Result Payload :=
  match token with
  | Garbled _ => Raise (JsonWebTokenError "jwt malformed")
  | Jws key payload =>
      if negb (String.eqb key secret) then Raise (JsonWebTokenError "invalid signature")
      else if payload_exp payload <=? now / 1000 then Raise TokenExpiredError
      else Done payload
  end.

End jwt.

(** ** The auth routes *)

(** An HTTP answer: [res.json(body)] or [res.status(s).json({ error, code })]. *)
Inductive Reply (A : Type) :=
  | Json (body : A)
  | Error (status : Z) (error code : string).
Arguments Json {A} body.
Arguments Error {A} status error code.

Definition internal_error {A} : Reply A := Error 500 "Internal server error" "INTERNAL_ERROR".

Record UserView := mkView {
  view_id : Z;
  view_walletAddress : string;
  view_username : option string;
  view_email : option string;
  view_preferences : string
}.

Record ConnectBody := mkConnectBody {
  body_walletAddress : string;
  body_signature : string;
  body_message : string;
  body_username : option string;
  body_email : option string
}.

Record ConnectOk := mkConnectOk {
  ok_user : UserView;
  ok_accessToken : jwt.Token;
  ok_refreshToken : jwt.Token;
  ok_sessionId : string
}.

Record NonceOk := mkNonceOk {
  nonce_message : string;
  nonce_nonce : string;
  nonce_timestamp : Z
}.

(** The clock readings, random draw and store availability of one connect
    request, in program order. *)
Record ConnectEnv := mkConnectEnv {
  connect_now : Z;                (* Date.now() of the freshness check *)
  connect_db_user_up : bool;      (* db.createUser gets through *)
  connect_db_user_now : Z;        (* its CURRENT_TIMESTAMP *)
  connect_jwt_access_now : Z;     (* clock of the first jwt.sign *)
  connect_jwt_refresh_now : Z;    (* clock of the second jwt.sign *)
  connect_sid_now : Z;            (* Date.now() in generateSessionId *)
  connect_sid_random : string;    (* Math.random().toString(36) there *)
  connect_expires_now : Z;        (* Date.now() of expiresAt *)
  connect_db_session_up : bool;   (* db.createSession gets through *)
  connect_redis_up : bool;        (* the SETEX gets through *)
  connect_redis_now : Z           (* Redis clock when it runs *)
}.

Record RefreshEnv := mkRefreshEnv {
  refresh_verify_now : Z;         (* clock of jwt.verify *)
  refresh_db_up : bool;           (* db.getUserByWallet gets through *)
  refresh_jwt_now : Z             (* clock of jwt.sign *)
}.

Record DisconnectEnv := mkDisconnectEnv {
  disconnect_db_up : bool;
  disconnect_redis_up : bool
}.

Record NonceEnv := mkNonceEnv {
  nonce_random : string;          (* Math.random().toString(36) in generateNonce *)
  nonce_now : Z;                  (* Date.now() of the timestamp *)
  nonce_redis_up : bool;
  nonce_redis_now : Z
}.

(** The body of [GET /profile]: the user with the two timestamps. *)
Record ProfileOk := mkProfileOk {
  profile_user : UserView;
  profile_createdAt : Z;
  profile_updatedAt : Z
}.

Record ProfileEnv := mkProfileEnv {
  profile_verify_now : Z;         (* clock of jwt.verify *)
  profile_db_up : bool            (* db.getUserByWallet gets through *)
}.

Record PreferencesEnv := mkPreferencesEnv {
  preferences_verify_now : Z;     (* clock of jwt.verify *)
  preferences_db_up : bool;       (* db.updateUserPreferences gets through *)
  preferences_db_now : Z          (* its CURRENT_TIMESTAMP *)
}.

Definition newline : string := String (ascii_of_nat 10) EmptyString.

Definition fiveMinutes : Z := 5 * 60 * 1000.

(** [now - messageTimestamp > fiveMinutes].  A [Date.now()] is below 2^53, so
    the comparison on integers decides as the one on doubles does. *)
Definition message_expired (now : Z) (message : string) : bool :=
  fiveMinutes <? now - extractTimestampFromMessage message.

(** [a.toLowerCase() === b.toLowerCase()] *)
Definition same_address (a b : string) : bool :=
  String.eqb (Str.toLowerCase a) (Str.toLowerCase b).

Section Routes.

(** [ethers.verifyMessage(message, signature)]: the recovered address, or
    [None] when it throws (the signature does not parse or recover). *)
Context (verifyMessage : string -> string -> option string).

(** [process.env.JWT_SECRET] *)
Context (JWT_SECRET : string).

(** What the JSONB column [users.preferences] makes of a JSON text: see
    [DatabaseService.updateUserPreferences]. *)
Context (jsonb : string -> option string).

Definition ethers_verifyMessage (message signature : string) : Io string :=
  lift match verifyMessage message signature with
       | Some address => Done address
       | None => Raise SignatureError
       end.

(** The access token both [connect] and [refresh] sign. *)
Definition accessTokenFor (now : Z) (user : UserRow) : jwt.Token :=
  jwt.sign now
    (jwt.mkClaims (user_id user) (user_wallet_address user) (Some (user_username user)))
    JWT_SECRET 3600.

(** The refresh token [connect] signs. *)
Definition refreshTokenFor (now : Z) (user : UserRow) : jwt.Token :=
  jwt.sign now
    (jwt.mkClaims (user_id user) (user_wallet_address user) None)
    JWT_SECRET 604800.

(** [router.post("/connect")], the body of the [try]. *)
Definition connect_try (env : ConnectEnv) (body : ConnectBody) : Io (Reply ConnectOk) :=
  recoveredAddress ← ethers_verifyMessage (body_message body) (body_signature body);
  if negb (same_address recoveredAddress (body_walletAddress body))
  then mret (Error 401 "Invalid signature" "INVALID_SIGNATURE")
  else if message_expired (connect_now env) (body_message body)
  then mret (Error 401 "Message expired" "MESSAGE_EXPIRED")
  else
    user ← DatabaseService.createUser (connect_db_user_up env) (connect_db_user_now env)
             (body_walletAddress body) (body_username body) (body_email body);
    let accessToken := accessTokenFor (connect_jwt_access_now env) user in
    let refreshToken := refreshTokenFor (connect_jwt_refresh_now env) user in
    let sessionId := generateSessionId (connect_sid_now env) (connect_sid_random env) in
    let expiresAt := connect_expires_now env + 7 * 24 * 60 * 60 * 1000 in
    DatabaseService.createSession (connect_db_session_up env) sessionId
      (user_id user) (user_wallet_address user) expiresAt;;
    RedisService.cacheUserSession (connect_redis_up env) (connect_redis_now env) sessionId
      (mkPayload (user_id user) (user_wallet_address user) (user_username user))
      (7 * 24 * 60 * 60);;
    mret (Json (mkConnectOk
                  (mkView (user_id user) (user_wallet_address user) (user_username user)
                          (user_email user) (user_preferences user))
                  accessToken refreshToken sessionId)).

Definition connect (env : ConnectEnv) (body : ConnectBody) : World -> Reply ConnectOk * World :=
  try_catch (connect_try env body) (fun _ => internal_error).

(** [router.post("/refresh")] *)
Definition refresh_try (env : RefreshEnv) (refreshToken : jwt.Token) : Io (Reply jwt.Token) :=
  decoded ← lift (jwt.verify (refresh_verify_now env) refreshToken JWT_SECRET);
  user ← DatabaseService.getUserByWallet (refresh_db_up env)
           (jwt.claim_walletAddress (jwt.payload_claims decoded));
  match user with
  | None => mret (Error 401 "User not found" "USER_NOT_FOUND")
  | Some user => mret (Json (accessTokenFor (refresh_jwt_now env) user))
  end.

Definition refresh (env : RefreshEnv) (refreshToken : jwt.Token) :
    World -> Reply jwt.Token * World :=
  try_catch (refresh_try env refreshToken)
    (fun error =>
       if instanceof_JsonWebTokenError error
       then Error 401 "Invalid refresh token" "INVALID_REFRESH_TOKEN"
       else internal_error).

(** [router.post("/disconnect")]; the argument is [req.headers["x-session-id"]],
    and [if (sessionId)] is false for a missing header and for the empty
    string. *)
Definition disconnect_try (env : DisconnectEnv) (header : option string) : Io (Reply string) :=
  match header with
  | Some sessionId =>
      if String.eqb sessionId "" then mret (Json "Disconnected successfully")
      else
        DatabaseService.deleteSession (disconnect_db_up env) sessionId;;
        RedisService.invalidateUserSession (disconnect_redis_up env) sessionId;;
        mret (Json "Disconnected successfully")
  | None => mret (Json "Disconnected successfully")
  end.

Definition disconnect (env : DisconnectEnv) (header : option string) :
    World -> Reply string * World :=
  try_catch (disconnect_try env header) (fun _ => internal_error).

(** [router.get("/nonce/:walletAddress")] *)
Definition nonce_try (env : NonceEnv) (walletAddress : string) : Io (Reply NonceOk) :=
  if negb (wallet_pattern walletAddress)
  then mret (Error 400 "Invalid wallet address format" "INVALID_WALLET_ADDRESS")
  else
    let nonce := generateNonce (nonce_random env) in
    let timestamp := nonce_now env in
    let message :=
      "Sign this message to connect to PsyFi:" +:+ newline +:+ newline +:+
      "Wallet: " +:+ walletAddress +:+ newline +:+
      "Nonce: " +:+ nonce +:+ newline +:+
      "Timestamp: " +:+ pretty timestamp in
    RedisService.set (nonce_redis_up env) (nonce_redis_now env)
      ("nonce:" +:+ walletAddress) (Text nonce) (Some 300);;
    mret (Json (mkNonceOk message nonce timestamp)).

Definition issueChallenge (env : NonceEnv) (walletAddress : string) :
    World -> Reply NonceOk * World :=
  try_catch (nonce_try env walletAddress) (fun _ => internal_error).

(** [if (!token)] on [req.headers.authorization?.replace("Bearer ", "")]: the
    argument of the two routes below is the header after the replacement, and
    it is falsy when the header is missing or nothing is left of it. *)
Definition no_token (authorization : option jwt.Token) : bool :=
  match authorization with
  | None => true
  | Some (jwt.Garbled raw) => String.eqb raw ""
  | Some (jwt.Jws _ _) => false
  end.

Definition invalid_token (error : Exn) {A} : Reply A :=
  if instanceof_JsonWebTokenError error
  then Error 401 "Invalid token" "INVALID_TOKEN"
  else internal_error.

(** [router.get("/profile")] *)
Definition profile_try (env : ProfileEnv) (authorization : option jwt.Token) :
    Io (Reply ProfileOk) :=
  match authorization with
  | Some token =>
      if no_token authorization then mret (Error 401 "No token provided" "NO_TOKEN")
      else
        decoded ← lift (jwt.verify (profile_verify_now env) token JWT_SECRET);
        user ← DatabaseService.getUserByWallet (profile_db_up env)
                 (jwt.claim_walletAddress (jwt.payload_claims decoded));
        match user with
        | None => mret (Error 404 "User not found" "USER_NOT_FOUND")
        | Some user =>
            mret (Json (mkProfileOk
                          (mkView (user_id user) (user_wallet_address user)
                             (user_username user) (user_email user)
                             (user_preferences user))
                          (user_created_at user) (user_updated_at user)))
        end
  | None => mret (Error 401 "No token provided" "NO_TOKEN")
  end.

Definition profile (env : ProfileEnv) (authorization : option jwt.Token) :
    World -> Reply ProfileOk * World :=
  try_catch (profile_try env authorization) (fun error => invalid_token error).

(** [router.put("/preferences")]; [preferences] is the field of the body, as
    JSON text. *)
Definition preferences_try (env : PreferencesEnv) (authorization : option jwt.Token)
    (preferences : option string) : Io (Reply string) :=
  match authorization with
  | Some token =>
      if no_token authorization then mret (Error 401 "No token provided" "NO_TOKEN")
      else
        decoded ← lift (jwt.verify (preferences_verify_now env) token JWT_SECRET);
        updatedUser ← DatabaseService.updateUserPreferences jsonb (preferences_db_up env)
                        (preferences_db_now env)
                        (jwt.claim_walletAddress (jwt.payload_claims decoded)) preferences;
        match updatedUser with
        | None => mret (Error 404 "User not found" "USER_NOT_FOUND")
        | Some updatedUser => mret (Json (user_preferences updatedUser))
        end
  | None => mret (Error 401 "No token provided" "NO_TOKEN")
  end.

Definition preferences (env : PreferencesEnv) (authorization : option jwt.Token)
    (preferences : option string) : World -> Reply string * World :=
  try_catch (preferences_try env authorization preferences)
    (fun error => invalid_token error).

End Routes.

(** ** Worked example: two wallets, their signatures, one server *)

Module Demo.

(** Two wallets.  The addresses are those of the secp256k1 keys
    0x0123456789012345678901234567890123456789012345678901234567890123
    (Alice) and
    0xac0974bec39a17e36ba4a6b4d238ff944bacb478cbed5efcae784d7bf4f2ff80
    (the stranger), in the mixed-case form in which ethers returns an
    address. *)
Definition alice : string := "0x14791697260E4c9A71f18484C9f997B308e59325".
Definition stranger : string := "0xf39Fd6e51aad88F6F4ce6aB8827279cffFb92266".

Definition fresh_message : string :=
  "Sign this message to connect to PsyFi:" +:+ newline +:+ newline +:+
  "Wallet: " +:+ alice +:+ newline +:+
  "Nonce: 4fzyo82mvyr" +:+ newline +:+
  "Timestamp: 1700000000000".

Definition stale_message : string :=
  "Sign this message to connect to PsyFi:" +:+ newline +:+ newline +:+
  "Wallet: " +:+ alice +:+ newline +:+
  "Nonce: 9k2c0x7hq1b" +:+ newline +:+
  "Timestamp: 1600000000000".

Definition bare_message : string := "I am the owner of this wallet".

(** The signatures ([personal_sign], 65 bytes: r, s, v) that Alice's key
    gives for the three messages, *)
Definition fresh_signature : string :=
  "0x565b1bba350b13dcaf3cce03804e5393c0fbacff971f3c4d3dcec1a16277fd17" +:+
  "42af7994579fe1c06d4c4bfdf28360a10dec6fe0665c3df6bec318cfa5db8bdc" +:+ "1c".

Definition stale_signature : string :=
  "0xbb9b1be56d5e37f6bfd00c78a4c028b47561f361476246d16f7e9c237ac045e3" +:+
  "4078da7c8a13fd4586f3471cb65a8e5821459e920bb02ca29ce4dec636f3621b" +:+ "1c".

Definition bare_signature : string :=
  "0x34155433fee5e456bade99b65ec7fc89637f5261a656ec69d46a3752052fa56e" +:+
  "720484600e539933340fef5a13ac8539ce493dd02c906a922ed0eddedf924782" +:+ "1b".

(** and the one that the stranger's key gives for [stale_message]. *)
Definition stranger_stale_signature : string :=
  "0xf0f2525373ed5fab8de9d6a35f1246100e8b27e8ca9ebe7776f22b2241764263" +:+
  "783f035550ba5798caf91d1250cc93a917b47dbd8f00352d46f50974318bae60" +:+ "1c".

(** A signature cut short: four bytes. *)
Definition truncated_signature : string := "0xdeadbeef".

(** The character U+0000 as a string. *)
Definition nul : string := String (ascii_of_nat 0) EmptyString.

(** The address that secp256k1 recovery gives for a message and a
    signature, for the pairs that the examples use. *)
Definition recoveries : list (string * string * string) :=
  [ (fresh_message, fresh_signature, alice);
    (stale_message, stale_signature, alice);
    (bare_message, bare_signature, alice);
    (stale_message, stranger_stale_signature, stranger) ].

(** [ethers.verifyMessage] cut down to the inputs of the examples: on the
    pairs of [recoveries] it returns the recovered address, and on
    [truncated_signature], which is not a signature of 64 or 65 bytes, it
    throws.  The examples give it no other input; this table throws there,
    which says nothing about ethers. *)
Definition verifyMessage (message signature : string) : option string :=
  match
    List.find (fun p => String.eqb (fst (fst p)) message && String.eqb (snd (fst p)) signature)
      recoveries
  with
  | Some p => Some (snd p)
  | None => None
  end.

Definition quote : string := String (ascii_of_nat 34) EmptyString.

(** The JSON text of a string with U+0000 in it. *)
Definition nul_document : string := quote +:+ "a\u0000b" +:+ quote.

(** The JSON text of an object with one key, as [JSON.stringify] writes
    it. *)
Definition theme_document : string :=
  "{" +:+ quote +:+ "theme" +:+ quote +:+ ":" +:+ quote +:+ "dark" +:+ quote +:+ "}".

(** A JSONB column cut down to the documents of the examples: it gives the
    empty object and [theme_document] back as they are and refuses
    [nul_document].  The examples give it no other text; this table refuses
    there, which says nothing about Postgres. *)
Definition jsonb (text : string) : option string :=
  if String.eqb text "{}" || String.eqb text theme_document then Some text else None.

Definition JWT_SECRET : string := "psyfi-development-secret".

(** A server with no user and no session yet. *)
Definition empty_world : World := mkWorld [] 1 [] ∅ [].

(** A connect request served within a few milliseconds; the insert of the
    session row takes 5 ms. *)
Definition env_at (now : Z) : ConnectEnv :=
  mkConnectEnv now true (now + 1) (now + 2) (now + 2) (now + 3) "0.4fzyo82mvyr"
    (now + 3) true true (now + 8).

Definition alice_row : UserRow :=
  mkUser 1 alice (Some "alice") (Some "alice@example.org") "{}" 1700000000000 1700000000000.

(** A server on which Alice has connected before. *)
Definition alice_world : World := mkWorld [alice_row] 2 [] ∅ [DbUpsertUser alice].

(** One second after the timestamp of [fresh_message]. *)
Definition now : Z := 1700000001000.

Definition request (signature message : string) : ConnectBody :=
  mkConnectBody alice signature message None None.

(** Alice's own requests, *)
Definition fresh_request : ConnectBody := request fresh_signature fresh_message.
Definition stale_request : ConnectBody := request stale_signature stale_message.

(** a request with a signature cut short, and one that claims Alice's wallet
    under an old message that the stranger has signed. *)
Definition truncated_request : ConnectBody := request truncated_signature fresh_message.
Definition forged_stale_request : ConnectBody := request stranger_stale_signature stale_message.

(** The session id that [env_at now] produces. *)
Definition sid : string := "sess_1700000001003_4fzyo82mv".

End Demo.

(** * Properties *)

(** ** The timestamp pattern *)

Lemma strip_spec p s r : Str.strip p s = Some r ↔ s = p +:+ r.
Proof.
  revert s; induction p as [|a p IH]; intros s; simpl.
  - split; [intros [= ->] | intros ->]; reflexivity.
  - destruct s as [|b s].
    + split; [discriminate | intros [=]].
    + destruct (Ascii.eqb_spec a b) as [->|Hne].
      * rewrite IH. split; [intros -> | intros [= ->]]; reflexivity.
      * split; [discriminate | intros [= E _]; congruence].
Qed.



Lemma timestampMatch_unfold message :
  timestampMatch message =
  match match_here message with
  | Some ds => Some ds
  | None => match message with
            | EmptyString => None
            | String _ tail => timestampMatch tail
            end
  end.
Proof. destruct message; reflexivity. Qed.




(** ** Decimal text *)

Lemma all_app p a b : Str.all p (a +:+ b) = Str.all p a && Str.all p b.
Proof.
  induction a as [|c a IH]; simpl; [reflexivity|].
  rewrite IH, andb_assoc. reflexivity.
Qed.


Lemma parse_from_positional acc s :
  Str.parse_from acc s
  = acc * 10 ^ Z.of_nat (String.length s) + Str.parse_from 0 s.
Proof.
  revert acc; induction s as [|c s IH]; intros acc; simpl String.length.
  - simpl. lia.
  - cbn [Str.parse_from]. rewrite (IH (10 * acc + Str.digit_value c)),
      (IH (10 * 0 + Str.digit_value c)).
    rewrite Nat2Z.inj_succ, Z.pow_succ_r by lia. lia.
Qed.

Lemma pretty_N_char_digit x :
  (x < 10)%N →
  Str.is_digit (pretty_N_char x) = true ∧ Str.digit_value (pretty_N_char x) = Z.of_N x.
Proof.
  intros Hx.
  assert (x = 0 ∨ x = 1 ∨ x = 2 ∨ x = 3 ∨ x = 4 ∨ x = 5 ∨ x = 6 ∨ x = 7 ∨ x = 8 ∨ x = 9)%N
    as Hcases by lia.
  repeat (destruct Hcases as [-> | Hcases]; [split; reflexivity|]).
  subst x. split; reflexivity.
Qed.

Lemma pretty_N_go_decimal x s :
  Str.all Str.is_digit s = true →
  Str.all Str.is_digit (pretty_N_go x s) = true ∧
  Str.parse_from 0 (pretty_N_go x s)
  = Z.of_N x * 10 ^ Z.of_nat (String.length s) + Str.parse_from 0 s.
Proof.
  revert s. induction (N.lt_wf_0 x) as [x _ IH]; intros s Hs.
  destruct (decide (x = 0)%N) as [->|Hx].
  - rewrite pretty_N_go_0. split; [exact Hs | lia].
  - rewrite pretty_N_go_step by lia.
    destruct (pretty_N_char_digit (x `mod` 10)%N) as [Hd Hv];
      [apply N.mod_lt; discriminate|].
    destruct (IH (x `div` 10)%N) with (s := String (pretty_N_char (x `mod` 10)) s)
      as [Hall Hparse].
    + apply N.div_lt; lia.
    + simpl. rewrite Hd. exact Hs.
    + split; [exact Hall|]. rewrite Hparse. cbn [Str.parse_from String.length].
      rewrite (parse_from_positional (10 * 0 + _)), Hv.
      rewrite Nat2Z.inj_succ, Z.pow_succ_r by lia.
      pose proof (N.div_mod x 10) as Hdm.
      assert (Z.of_N x = 10 * Z.of_N (x `div` 10) + Z.of_N (x `mod` 10)) as -> by lia.
      lia.
Qed.

Lemma pretty_N_go_nonempty x s : (0 < x)%N → pretty_N_go x s ≠ "".
Proof.
  revert s. induction (N.lt_wf_0 x) as [x _ IH]; intros s Hx.
  rewrite pretty_N_go_step by exact Hx.
  destruct (decide (x `div` 10 = 0)%N) as [->|Hq].
  - rewrite pretty_N_go_0. discriminate.
  - apply IH; [apply N.div_lt; [exact Hx | reflexivity] | apply N.neq_0_lt_0, Hq].
Qed.

(** The decimal text of a non-negative integer is a non-empty run of digits
    that [parseInt] reads back. *)
Lemma pretty_decimal n :
  0 <= n →
  Str.all Str.is_digit (pretty n) = true ∧ pretty n ≠ "" ∧ Str.parseInt (pretty n) = n.
Proof.
  intros Hn. destruct n as [|p|p]; [repeat split; discriminate | | lia].
  unfold pretty, pretty_Z, pretty, pretty_positive, pretty, pretty_N.
  destruct (decide (N.pos p = 0)%N) as [|_]; [discriminate|].
  destruct (pretty_N_go_decimal (N.pos p) "" eq_refl) as [Hall Hparse].
  split; [exact Hall|]. split; [apply pretty_N_go_nonempty; reflexivity|].
  unfold Str.parseInt. rewrite Hparse. simpl. lia.
Qed.

Lemma digits_all s : Str.all Str.is_digit s = true → Str.digits s = s.
Proof.
  induction s as [|c s IH]; simpl; [reflexivity|].
  intros [Hc Hs]%andb_true_iff. rewrite Hc, (IH Hs). reflexivity.
Qed.

(** ** The timestamp a message carries *)






(** The pattern on concrete messages: the message of the nonce route, a
    message whose first ["Timestamp: "] is not followed by a digit, and one
    without the pattern. *)
Example issued_message_is_fresh_message :
  fst (issueChallenge (mkNonceEnv "0.4fzyo82mvyr" 1700000000000 true 1700000000002)
         Demo.alice Demo.empty_world)
  = Json (mkNonceOk Demo.fresh_message "4fzyo82mvyr" 1700000000000).
Proof. vm_compute. reflexivity. Qed.

Example timestamp_of_fresh_message :
  extractTimestampFromMessage Demo.fresh_message = 1700000000000.
Proof. reflexivity. Qed.

Example timestamp_leftmost_match :
  extractTimestampFromMessage "Timestamp: soon. Timestamp: 12a Timestamp: 7" = 12.
Proof. reflexivity. Qed.

Example timestamp_of_bare_message :
  extractTimestampFromMessage Demo.bare_message = 0.
Proof. reflexivity. Qed.

Example session_id_shape :
  generateSessionId 1700000001003 "0.4fzyo82mvyr" = Demo.sid.
Proof. reflexivity. Qed.

(** ** The steps of connect *)

Ltac io_unfold :=
  unfold try_catch, recover, mbind, io_bind, mret, io_ret, lift, throw, gets, modify in *.

Section RouteFacts.

Context (verifyMessage : string -> string -> option string) (JWT_SECRET : string).

Lemma connect_throwing env body w :
  verifyMessage (body_message body) (body_signature body) = None →
  connect verifyMessage JWT_SECRET env body w = (internal_error, w).
Proof.
  intros H. unfold connect, connect_try, ethers_verifyMessage.
  io_unfold. rewrite H. reflexivity.
Qed.

Lemma connect_mismatch env body w recovered :
  verifyMessage (body_message body) (body_signature body) = Some recovered →
  same_address recovered (body_walletAddress body) = false →
  connect verifyMessage JWT_SECRET env body w
  = (Error 401 "Invalid signature" "INVALID_SIGNATURE", w).
Proof.
  intros H Hne. unfold connect, connect_try, ethers_verifyMessage.
  io_unfold. rewrite H. rewrite Hne. reflexivity.
Qed.

Lemma connect_expired env body w recovered :
  verifyMessage (body_message body) (body_signature body) = Some recovered →
  same_address recovered (body_walletAddress body) = true →
  message_expired (connect_now env) (body_message body) = true →
  connect verifyMessage JWT_SECRET env body w = (Error 401 "Message expired" "MESSAGE_EXPIRED", w).
Proof.
  intros H He Hx. unfold connect, connect_try, ethers_verifyMessage.
  io_unfold. rewrite H. rewrite He, Hx. reflexivity.
Qed.

End RouteFacts.

(** ** Signature, then freshness *)

Section Verification.

Context (verifyMessage : string -> string -> option string) (JWT_SECRET : string).

(** C3 (amended).  When [ethers.verifyMessage] throws because the signature
    does not parse or recover, the exception reaches the catch-all handler of
    the route: connect answers 500 INTERNAL_ERROR, which is neither
    INVALID_SIGNATURE nor a kind of its own, and no store is written. *)
Theorem connect_unrecoverable_signature env body w :
  verifyMessage (body_message body) (body_signature body) = None →
  connect verifyMessage JWT_SECRET env body w
  = (Error 500 "Internal server error" "INTERNAL_ERROR", w).
Proof. intros H. exact (connect_throwing _ _ env body w H). Qed.

(** C4 (amended).  The signature is checked before the timestamp.  For a
    message whose embedded timestamp is more than five minutes old, connect
    answers MESSAGE_EXPIRED exactly when the recovered address is the claimed
    one; a recovered address that differs gives INVALID_SIGNATURE and a
    signature that does not recover gives INTERNAL_ERROR.  Nothing is written
    in any of the three cases. *)
Theorem connect_stale_message env body w :
  fiveMinutes < connect_now env - extractTimestampFromMessage (body_message body) →
  connect verifyMessage JWT_SECRET env body w =
  (match verifyMessage (body_message body) (body_signature body) with
   | None => Error 500 "Internal server error" "INTERNAL_ERROR"
   | Some recovered =>
       if same_address recovered (body_walletAddress body)
       then Error 401 "Message expired" "MESSAGE_EXPIRED"
       else Error 401 "Invalid signature" "INVALID_SIGNATURE"
   end, w).
Proof.
  intros Hold.
  assert (message_expired (connect_now env) (body_message body) = true) as Hx
    by (unfold message_expired; lia).
  destruct (verifyMessage _ _) as [recovered|] eqn:Hv.
  - destruct (same_address recovered _) eqn:Hs.
    + eauto using connect_expired.
    + eauto using connect_mismatch.
  - eauto using connect_throwing.
Qed.


End Verification.

(** ** The identity table *)

Lemma upsert_user_returns now nextval walletAddress username email rows :
  let (row, rows') :=
    DatabaseService.upsert_user now nextval walletAddress username email rows in
  In row rows'.
Proof.
  induction rows as [|r rest IH]; simpl.
  - left; reflexivity.
  - destruct (String.eqb _ walletAddress).
    + left; reflexivity.
    + destruct (DatabaseService.upsert_user _ _ _ _ _ rest) as [row rest'].
      right; exact IH.
Qed.

Lemma has_user_id_In row rows :
  In row rows → DatabaseService.has_user_id (user_id row) rows = true.
Proof.
  intros Hin. unfold DatabaseService.has_user_id. apply existsb_exists.
  exists row. split; [exact Hin | apply Z.eqb_refl].
Qed.

Lemma createUser_up now walletAddress username email w :
  DatabaseService.users_columns walletAddress username email = true →
  ∃ user w1,
    DatabaseService.createUser true now walletAddress username email w = (Done user, w1) ∧
    DatabaseService.has_user_id (user_id user) (users w1) = true ∧
    api_sessions w1 = api_sessions w ∧ redis w1 = redis w ∧
    journal w1 = (journal w ++ [DbUpsertUser walletAddress])%list.
Proof.
  intros Hfit. unfold DatabaseService.createUser. rewrite Hfit.
  pose proof (upsert_user_returns now (users_id_seq w) walletAddress username email
                (users w)) as Hin.
  destruct (DatabaseService.upsert_user _ _ _ _ _ (users w)) as [row rows].
  eexists _, _. split; [reflexivity|]. simpl.
  split; [exact (has_user_id_In _ _ Hin)|]. repeat split.
Qed.

Lemma createUser_down now walletAddress username email w :
  DatabaseService.createUser false now walletAddress username email w
  = (Raise (PgError "connection"), w).
Proof. reflexivity. Qed.

Lemma createUser_refused now walletAddress username email w :
  DatabaseService.users_columns walletAddress username email = false →
  DatabaseService.createUser true now walletAddress username email w
  = (Raise (PgError "value does not fit the column"), w).
Proof. intros Hfit. unfold DatabaseService.createUser. rewrite Hfit. reflexivity. Qed.

(** [createUser] returns a row only when the statement got through and the
    parameters fit their columns; when it raises, nothing is written. *)
Lemma createUser_cases up now walletAddress username email w :
  (∃ e, DatabaseService.createUser up now walletAddress username email w = (Raise e, w)) ∨
  (up = true ∧ DatabaseService.users_columns walletAddress username email = true ∧
   ∃ user w1,
     DatabaseService.createUser up now walletAddress username email w = (Done user, w1)).
Proof.
  destruct up; [|left; eexists; apply createUser_down].
  destruct (DatabaseService.users_columns walletAddress username email) eqn:Hfit.
  - right. destruct (createUser_up now walletAddress username email w Hfit)
      as (user & w1 & E & _). eauto.
  - left. eexists. apply createUser_refused, Hfit.
Qed.

(** ** The session cache *)

Lemma recover_returns {A} (body : Io A) (fallback : A) w :
  ∃ a, recover body fallback w = (Done a, snd (recover body fallback w)).
Proof. unfold recover. destruct (body w) as [[a|e] w']; simpl; eauto. Qed.

Lemma cacheUserSession_returns up now sessionId userData ttl w :
  ∃ b, RedisService.cacheUserSession up now sessionId userData ttl w
       = (Done b, snd (RedisService.cacheUserSession up now sessionId userData ttl w)).
Proof. apply recover_returns. Qed.

(** What [cacheUserSession] leaves behind for a positive TTL. *)
Lemma cacheUserSession_world up now sessionId userData ttl w :
  0 < ttl →
  snd (RedisService.cacheUserSession up now sessionId userData ttl w) =
  if up then
    log (RedisSet ("session:" +:+ sessionId))
      (set_redis (insert ("session:" +:+ sessionId)
                    (mkEntry (JsonText userData) (Some (now + ttl * 1000)))) w)
  else w.
Proof.
  intros Hpos.
  unfold RedisService.cacheUserSession, RedisService.setJSON, RedisService.set,
    RedisService.client_setEx.
  io_unfold.
  assert ((ttl =? 0) = false) as -> by lia. assert ((0 <? ttl) = true) as -> by lia.
  destruct up; reflexivity.
Qed.

(** ** connect after a successful verification *)

Section SessionIssue.

Context (verifyMessage : string -> string -> option string) (JWT_SECRET : string).

Definition connect_ok (env : ConnectEnv) (user : UserRow) : ConnectOk :=
  mkConnectOk
    (mkView (user_id user) (user_wallet_address user) (user_username user)
       (user_email user) (user_preferences user))
    (accessTokenFor JWT_SECRET (connect_jwt_access_now env) user)
    (refreshTokenFor JWT_SECRET (connect_jwt_refresh_now env) user)
    (generateSessionId (connect_sid_now env) (connect_sid_random env)).

Lemma connect_verified env body w recovered :
  verifyMessage (body_message body) (body_signature body) = Some recovered →
  same_address recovered (body_walletAddress body) = true →
  message_expired (connect_now env) (body_message body) = false →
  connect verifyMessage JWT_SECRET env body w =
  match DatabaseService.createUser (connect_db_user_up env) (connect_db_user_now env)
          (body_walletAddress body) (body_username body) (body_email body) w with
  | (Raise _, w1) => (internal_error, w1)
  | (Done user, w1) =>
      match DatabaseService.createSession (connect_db_session_up env)
              (generateSessionId (connect_sid_now env) (connect_sid_random env))
              (user_id user) (user_wallet_address user)
              (connect_expires_now env + 7 * 24 * 60 * 60 * 1000) w1 with
      | (Raise _, w2) => (internal_error, w2)
      | (Done _, w2) =>
          (Json (connect_ok env user),
           snd (RedisService.cacheUserSession (connect_redis_up env) (connect_redis_now env)
                  (generateSessionId (connect_sid_now env) (connect_sid_random env))
                  (mkPayload (user_id user) (user_wallet_address user) (user_username user))
                  (7 * 24 * 60 * 60) w2))
      end
  end.
Proof.
  intros Hv Hs Hx. unfold connect, connect_try, ethers_verifyMessage. io_unfold.
  rewrite Hv, Hs, Hx. cbn [negb].
  destruct (DatabaseService.createUser _ _ _ _ _ w) as [[user|e] w1]; [|reflexivity].
  destruct (DatabaseService.createSession _ _ _ _ _ w1) as [[row|e] w2]; [|reflexivity].
  destruct (cacheUserSession_returns (connect_redis_up env) (connect_redis_now env)
              (generateSessionId (connect_sid_now env) (connect_sid_random env))
              (mkPayload (user_id user) (user_wallet_address user) (user_username user))
              (7 * 24 * 60 * 60) w2) as (b & E).
  rewrite E. reflexivity.
Qed.

End SessionIssue.

(** ** What connect does not read *)






Section Blind.

Context {A B : Type} (key : string).






End Blind.






(** ** The session row and its cache entry *)


Lemma createSession_cases up sessionId userId walletAddress expiresAt w :
  let row := mkSession sessionId userId walletAddress expiresAt in
  (DatabaseService.createSession up sessionId userId walletAddress expiresAt w
     = (Done row, log (DbInsertSession sessionId)
                    (set_api_sessions (fun rows => (rows ++ [row])%list) w)) ∧
   up = true ∧
   DatabaseService.has_session sessionId (api_sessions w) = false ∧
   DatabaseService.has_user_id userId (users w) = true)
  ∨
  (∃ e, DatabaseService.createSession up sessionId userId walletAddress expiresAt w
          = (Raise e, w) ∧
        (up = false ∨
         DatabaseService.has_session sessionId (api_sessions w) = true ∨
         DatabaseService.has_user_id userId (users w) = false)).
Proof.
  intros row. unfold DatabaseService.createSession.
  destruct up; [|right; eexists; split; [reflexivity | auto]].
  destruct (DatabaseService.has_session _ _) eqn:Hs;
    [right; eexists; split; [reflexivity | auto]|].
  destruct (DatabaseService.has_user_id _ _) eqn:Hu; simpl.
  - left. auto.
  - right; eexists; split; [reflexivity | auto].
Qed.

Lemma has_session_app sessionId rows row :
  DatabaseService.has_session sessionId (rows ++ [row])
  = DatabaseService.has_session sessionId rows || String.eqb (session_id row) sessionId.
Proof.
  unfold DatabaseService.has_session. rewrite existsb_app. simpl.
  rewrite orb_false_r. reflexivity.
Qed.

Section Durability.

Context (verifyMessage : string -> string -> option string) (JWT_SECRET : string).

(** The tail of a journal that was written by one request. *)
Definition written (w w' : World) (writes : list Write) : Prop :=
  journal w' = (journal w ++ writes)%list.

(** Every reply of connect goes with one of four shapes of the journal tail
    and of the final world. *)
Lemma connect_cases env body w :
  let sid := generateSessionId (connect_sid_now env) (connect_sid_random env) in
  let key := "session:" +:+ sid in
  let reply := fst (connect verifyMessage JWT_SECRET env body w) in
  let w' := snd (connect verifyMessage JWT_SECRET env body w) in
  (w' = w ∧ ∀ ok, reply ≠ Json ok)
  ∨ (∃ user w1,
       DatabaseService.createUser (connect_db_user_up env) (connect_db_user_now env)
         (body_walletAddress body) (body_username body) (body_email body) w
       = (Done user, w1) ∧
       written w w1 [DbUpsertUser (body_walletAddress body)] ∧
       redis w1 = redis w ∧ api_sessions w1 = api_sessions w ∧
       let row := mkSession sid (user_id user) (user_wallet_address user)
                    (connect_expires_now env + 7 * 24 * 60 * 60 * 1000) in
       let w2 := log (DbInsertSession sid)
                   (set_api_sessions (fun rows => (rows ++ [row])%list) w1) in
       ((∃ e, DatabaseService.createSession (connect_db_session_up env) sid (user_id user)
                (user_wallet_address user) (session_expires_at row) w1 = (Raise e, w1)) ∧
        w' = w1 ∧ reply = internal_error)
       ∨
       (DatabaseService.createSession (connect_db_session_up env) sid (user_id user)
          (user_wallet_address user) (session_expires_at row) w1 = (Done row, w2) ∧
        reply = Json (connect_ok JWT_SECRET env user) ∧
        w' = if connect_redis_up env
             then log (RedisSet key)
                    (set_redis (insert key
                       (mkEntry (JsonText (mkPayload (user_id user) (user_wallet_address user)
                                             (user_username user)))
                          (Some (connect_redis_now env + 7 * 24 * 60 * 60 * 1000)))) w2)
             else w2)).
Proof.
  intros sid key reply w'. subst reply w'.
  destruct (verifyMessage (body_message body) (body_signature body)) as [recovered|] eqn:Hv;
    [|left; rewrite (connect_throwing _ _ env body w Hv); split; [reflexivity | discriminate]].
  destruct (same_address recovered (body_walletAddress body)) eqn:Hs;
    [|left; rewrite (connect_mismatch _ _ env body w _ Hv Hs); split;
      [reflexivity | discriminate]].
  destruct (message_expired (connect_now env) (body_message body)) eqn:Hx;
    [left; rewrite (connect_expired _ _ env body w _ Hv Hs Hx); split;
      [reflexivity | discriminate]|].
  rewrite (connect_verified _ JWT_SECRET env body w _ Hv Hs Hx).
  destruct (createUser_cases (connect_db_user_up env) (connect_db_user_now env)
              (body_walletAddress body) (body_username body) (body_email body) w)
    as [[e E] | (Hup & Hfit & _)].
  { rewrite E. left. split; [reflexivity | discriminate]. }
  rewrite Hup.
  destruct (createUser_up (connect_db_user_now env) (body_walletAddress body)
              (body_username body) (body_email body) w Hfit)
    as (user & w1 & -> & Hid & Hsess & Hredis & Hj).
  right. exists user, w1. split; [reflexivity|]. split; [exact Hj|].
  split; [exact Hredis|]. split; [exact Hsess|]. fold sid.
  destruct (createSession_cases (connect_db_session_up env) sid (user_id user)
              (user_wallet_address user)
              (connect_expires_now env + 7 * 24 * 60 * 60 * 1000) w1)
    as [(E & _) | (e & E & _)]; simpl in E |- *; rewrite E; simpl.
  - right. split; [reflexivity|]. split; [reflexivity|].
    apply cacheUserSession_world. lia.
  - left. split; [eauto | split; reflexivity].
Qed.

End Durability.

Section DurabilityClaims.

Context (verifyMessage : string -> string -> option string) (JWT_SECRET : string).

Ltac split_writes H before :=
  destruct before as [|? [|? [|? [|? ?]]]]; simpl in H; try discriminate H;
  injection H as H; subst.

(** C6.  connect inserts the session row before it writes the cache entry.
    In the journal of one request a cache write is always for the key of the
    session created by this request and comes after the insert of that
    session's row, so no prefix of the execution holds the cache entry without
    the row; a Redis key changes only if that row is in the table.  Once the
    request is verified and the user row is there, the reply is a success if
    and only if the insert of the session row succeeds, and a cache write that
    fails changes neither the reply nor anything else. *)
Theorem durable_row_before_cache_entry env body w :
  let sid := generateSessionId (connect_sid_now env) (connect_sid_random env) in
  let key := "session:" +:+ sid in
  let reply := fst (connect verifyMessage JWT_SECRET env body w) in
  let w' := snd (connect verifyMessage JWT_SECRET env body w) in
  (∃ writes, written w w' writes ∧
     ∀ before k after,
       writes = (before ++ RedisSet k :: after)%list →
       k = key ∧ In (DbInsertSession sid) before) ∧
  (∀ k, redis w' !! k ≠ redis w !! k →
     k = key ∧ DatabaseService.has_session sid (api_sessions w') = true) ∧
  (∀ recovered user w1,
     verifyMessage (body_message body) (body_signature body) = Some recovered →
     same_address recovered (body_walletAddress body) = true →
     message_expired (connect_now env) (body_message body) = false →
     DatabaseService.createUser (connect_db_user_up env) (connect_db_user_now env)
       (body_walletAddress body) (body_username body) (body_email body) w
     = (Done user, w1) →
     let durable :=
       DatabaseService.createSession (connect_db_session_up env) sid (user_id user)
         (user_wallet_address user) (connect_expires_now env + 7 * 24 * 60 * 60 * 1000) w1 in
     ((∃ ok, reply = Json ok) ↔ (∃ row w2, durable = (Done row, w2))) ∧
     (∀ row w2, durable = (Done row, w2) → connect_redis_up env = false →
        reply = Json (connect_ok JWT_SECRET env user) ∧ w' = w2)).
Proof.
  intros sid key reply w'. split; [|split].
  - destruct (connect_cases verifyMessage JWT_SECRET env body w)
      as [[Hw _] | (user & w1 & _ & Hj & _ & _ & [(_ & Hw & _) | (_ & _ & Hw)])];
      fold sid key w' in Hw |- *; rewrite Hw; unfold written in *.
    + exists []. split; [rewrite app_nil_r; reflexivity|].
      intros before k after H. split_writes H before.
    + exists [DbUpsertUser (body_walletAddress body)]. split; [exact Hj|].
      intros before k after H. split_writes H before.
    + destruct (connect_redis_up env); simpl; rewrite Hj, <- !app_assoc; simpl.
      * exists [DbUpsertUser (body_walletAddress body); DbInsertSession sid; RedisSet key].
        split; [reflexivity|]. intros before k after H. split_writes H before.
        split; [reflexivity | simpl; auto].
      * exists [DbUpsertUser (body_walletAddress body); DbInsertSession sid].
        split; [reflexivity|]. intros before k after H. split_writes H before.
  - intros k Hk.
    destruct (connect_cases verifyMessage JWT_SECRET env body w)
      as [[Hw _] | (user & w1 & _ & _ & Hr & _ & [(_ & Hw & _) | (_ & _ & Hw)])];
      fold sid key w' in Hw; rewrite Hw in Hk |- *.
    + congruence.
    + congruence.
    + destruct (connect_redis_up env); simpl in Hk |- *; [|congruence].
      rewrite Hr in Hk. destruct (decide (key = k)) as [<-|Hne].
      * split; [reflexivity|]. rewrite has_session_app. simpl.
        rewrite String.eqb_refl. apply orb_true_r.
      * rewrite lookup_insert_ne in Hk by exact Hne. congruence.
  - intros recovered user w1 Hv Hs Hx Hu durable. subst reply w'.
    rewrite (connect_verified _ JWT_SECRET env body w _ Hv Hs Hx), Hu. fold sid.
    fold durable. destruct durable as [[row|e] w2]; simpl.
    + split; [split; eauto|]. intros row' w2' [= -> ->] Hdown.
      split; [reflexivity|]. rewrite cacheUserSession_world by lia.
      rewrite Hdown. reflexivity.
    + split; [split; [intros [ok [=]] | intros (? & ? & [=])] | intros ? ? [=]].
Qed.


End DurabilityClaims.

(** ** disconnect *)

Lemma has_session_deleted sessionId rows :
  DatabaseService.has_session sessionId (filter (fun s => session_id s ≠ sessionId) rows)
  = false.
Proof.
  induction rows as [|s rows IH]; [reflexivity|].
  rewrite filter_cons. case_decide as Hs; [|exact IH].
  unfold DatabaseService.has_session in *. simpl. rewrite IH, orb_false_r.
  apply String.eqb_neq. exact Hs.
Qed.

Lemma delete_absent sessionId rows :
  DatabaseService.has_session sessionId rows = false →
  filter (fun s => session_id s ≠ sessionId) rows = rows.
Proof.
  unfold DatabaseService.has_session.
  induction rows as [|s rows IH]; [reflexivity|]. simpl.
  intros [Hs Hrest]%orb_false_iff. rewrite filter_cons.
  apply String.eqb_neq in Hs. case_decide; [|contradiction].
  rewrite IH by exact Hrest. reflexivity.
Qed.

Lemma disconnect_world env sessionId w :
  sessionId ≠ "" → disconnect_db_up env = true →
  disconnect env (Some sessionId) w =
  (Json "Disconnected successfully",
   let w1 := log (DbDeleteSession sessionId)
               (set_api_sessions (filter (fun s => session_id s ≠ sessionId)) w) in
   if disconnect_redis_up env
   then log (RedisDel ("session:" +:+ sessionId))
          (set_redis (delete ("session:" +:+ sessionId)) w1)
   else w1).
Proof.
  intros Hne Hup. unfold disconnect, disconnect_try.
  apply String.eqb_neq in Hne. rewrite Hne.
  unfold DatabaseService.deleteSession, RedisService.invalidateUserSession,
    RedisService.del, RedisService.client_del.
  rewrite Hup. io_unfold. destruct (disconnect_redis_up env); reflexivity.
Qed.

(** C7.  With the database reachable, disconnect answers success for every
    session identifier, whether or not a row or a cache entry exists for it,
    and a second disconnect answers success again.  After the first call the
    table has no row for the identifier, and the second call leaves the table
    as the first left it; the cache entry is gone as soon as one of the two
    deletes reached Redis, and only then: a delete that does not reach Redis
    is not an error of the route and leaves the entry where it is.  For an
    identifier that was in neither store both calls leave the table and the
    cache as they were.  A missing or empty header is answered with success
    without touching a store. *)
Theorem disconnect_idempotent env1 env2 sessionId w :
  sessionId ≠ "" →
  disconnect_db_up env1 = true → disconnect_db_up env2 = true →
  let key := "session:" +:+ sessionId in
  let once := disconnect env1 (Some sessionId) w in
  let twice := disconnect env2 (Some sessionId) (snd once) in
  fst once = Json "Disconnected successfully" ∧
  fst twice = Json "Disconnected successfully" ∧
  DatabaseService.has_session sessionId (api_sessions (snd once)) = false ∧
  api_sessions (snd twice) = api_sessions (snd once) ∧
  users (snd twice) = users w ∧
  (disconnect_redis_up env1 = true → redis (snd once) !! key = None) ∧
  (disconnect_redis_up env1 = true ∨ disconnect_redis_up env2 = true →
     redis (snd twice) !! key = None) ∧
  (DatabaseService.has_session sessionId (api_sessions w) = false →
   redis w !! key = None →
     api_sessions (snd twice) = api_sessions w ∧ redis (snd twice) = redis w) ∧
  (∀ env, disconnect env None w = (Json "Disconnected successfully", w) ∧
          disconnect env (Some "") w = (Json "Disconnected successfully", w)).
Proof.
  intros Hne Hup1 Hup2 key once twice. subst once twice.
  rewrite (disconnect_world env1 sessionId w Hne Hup1). cbn [fst snd].
  rewrite (disconnect_world env2 sessionId _ Hne Hup2). cbn [fst snd].
  fold key.
  assert (∀ rows : list SessionRow,
            filter (fun s => session_id s ≠ sessionId)
              (filter (fun s => session_id s ≠ sessionId) rows)
            = filter (fun s => session_id s ≠ sessionId) rows) as Hff
    by (intros rows; apply delete_absent, has_session_deleted).
  split; [reflexivity|]. split; [reflexivity|].
  split; [destruct (disconnect_redis_up env1); apply has_session_deleted|].
  split; [destruct (disconnect_redis_up env1), (disconnect_redis_up env2); apply Hff|].
  split; [destruct (disconnect_redis_up env1), (disconnect_redis_up env2); reflexivity|].
  split; [intros ->; apply lookup_delete_eq|].
  split; [|split].
  - intros [-> | ->].
    + destruct (disconnect_redis_up env2); simpl; apply lookup_delete_eq.
    + destruct (disconnect_redis_up env1); simpl; apply lookup_delete_eq.
  - intros Habs Hnone.
    destruct (disconnect_redis_up env1), (disconnect_redis_up env2); simpl;
      rewrite Hff, (delete_absent _ _ Habs), ?(delete_id _ _ Hnone), ?(delete_id _ _ Hnone);
      split; reflexivity.
  - intros env. split; reflexivity.
Qed.

(** ** createUser *)

Lemma upsert_user_spec now nextval walletAddress username email rows :
  let (row, rows') :=
    DatabaseService.upsert_user now nextval walletAddress username email rows in
  match DatabaseService.find_user walletAddress rows with
  | Some old =>
      row = mkUser (user_id old) (user_wallet_address old)
              (match username with Some _ => username | None => user_username old end)
              (match email with Some _ => email | None => user_email old end)
              (user_preferences old) (user_created_at old) now ∧
      length rows' = length rows
  | None =>
      row = mkUser nextval walletAddress username email "{}" now now ∧
      rows' = (rows ++ [row])%list
  end ∧
  DatabaseService.find_user walletAddress rows' = Some row ∧
  ∀ other, other ≠ walletAddress →
    DatabaseService.find_user other rows' = DatabaseService.find_user other rows.
Proof.
  unfold DatabaseService.find_user. induction rows as [|r rest IH]; simpl.
  - split; [split; reflexivity|]. split.
    + rewrite filter_cons. case_decide; [reflexivity | contradiction].
    + intros other Hne. rewrite filter_cons.
      case_decide; [simpl in *; congruence | reflexivity].
  - destruct (String.eqb_spec (user_wallet_address r) walletAddress) as [E|Hne].
    + rewrite !filter_cons. case_decide; [|contradiction]. simpl.
      split; [split; reflexivity|]. split.
      * case_decide; [reflexivity | contradiction].
      * intros other Ho. rewrite !filter_cons. cbn [user_wallet_address].
        case_decide; [simpl in *; congruence | reflexivity].
    + destruct (DatabaseService.upsert_user _ _ _ _ _ rest) as [row rest'].
      destruct IH as (Hcase & Hfind & Hother).
      rewrite !filter_cons. case_decide; [contradiction|]. split; [|split].
      * destruct (head (filter _ rest)); destruct Hcase as [-> Hlen];
          split; simpl; congruence.
      * exact Hfind.
      * intros other Ho. rewrite !filter_cons. case_decide; simpl; [reflexivity|].
        apply Hother, Ho.
Qed.


(** ** The nonce *)

Lemma substring_length_le n m s : (String.length (substring n m s) ≤ m)%nat.
Proof.
  revert m s; induction n as [|n IH]; intros m s.
  - revert s; induction m as [|m IHm]; intros [|c s]; simpl; try lia.
    specialize (IHm s). lia.
  - destruct s as [|c s]; simpl; [lia | apply IH].
Qed.

Lemma substring_length n m s :
  String.length (substring n m s) = Nat.min m (String.length s - n).
Proof.
  revert m s; induction n as [|n IH]; intros m s.
  - revert s; induction m as [|m IHm]; intros [|c s]; simpl; try lia.
    rewrite IHm. lia.
  - destruct s as [|c s]; simpl; [lia | apply IH].
Qed.

Lemma all_substring_0 p m s : Str.all p s = true → Str.all p (substring 0 m s) = true.
Proof.
  revert s; induction m as [|m IH]; intros [|c s]; simpl; try reflexivity.
  intros [Hc Hs]%andb_true_iff. rewrite Hc. apply IH, Hs.
Qed.

Lemma all_weaken (p q : ascii → bool) s :
  (∀ c, p c = true → q c = true) → Str.all p s = true → Str.all q s = true.
Proof.
  intros Hpq. induction s as [|c s IH]; simpl; [reflexivity|].
  intros [Hc Hs]%andb_true_iff. rewrite (Hpq c Hc). apply IH, Hs.
Qed.

Lemma generateNonce_rendering r :
  random_rendering r = true →
  Str.all Str.is_base36 (generateNonce r) = true.
Proof.
  unfold random_rendering, generateNonce, Str.substr.
  intros [E | H]%orb_true_iff.
  - apply String.eqb_eq in E as ->. reflexivity.
  - destruct (Str.strip "0." r) as [ds|] eqn:Hs; [|discriminate].
    apply strip_spec in Hs as ->. apply andb_true_iff in H as [_ Hall].
    simpl. apply all_substring_0, Hall.
Qed.

(** C9 (amended).  The nonce is what follows ["0."] in the radix-36 rendering
    of the random number, cut after 15 characters: it has at most 15
    characters, as many as the rendering has digits when those are fewer, and
    each is a digit or a lower-case letter.  It is the nonce of the reply and
    of the message, for every address of the right format. *)
Theorem nonce_at_most_15 env walletAddress w :
  wallet_pattern walletAddress = true →
  random_rendering (nonce_random env) = true →
  ∃ ok,
    fst (issueChallenge env walletAddress w) = Json ok ∧
    nonce_nonce ok = generateNonce (nonce_random env) ∧
    (String.length (nonce_nonce ok) ≤ 15)%nat ∧
    String.length (nonce_nonce ok)
      = Nat.min 15 (String.length (nonce_random env) - 2) ∧
    Str.all Str.is_base36 (nonce_nonce ok) = true ∧
    Str.all Str.is_alnum (nonce_nonce ok) = true.
Proof.
  intros Hpat Hr. unfold issueChallenge, nonce_try. rewrite Hpat. cbn [negb].
  unfold try_catch, RedisService.set.
  destruct (recover_returns
              (RedisService.client_setEx (nonce_redis_up env) (nonce_redis_now env)
                 ("nonce:" +:+ walletAddress) 300 (Text (generateNonce (nonce_random env)));;
               mret true) false w) as [b Hb].
  cbn [negb Z.eqb]. io_unfold. unfold recover in Hb. rewrite Hb. simpl.
  eexists. split; [reflexivity|]. simpl.
  pose proof (generateNonce_rendering _ Hr) as Hall.
  split; [reflexivity|]. split; [apply substring_length_le|].
  split; [apply substring_length|]. split; [exact Hall|].
  apply (all_weaken Str.is_base36); [|exact Hall].
  intros c Hc. unfold Str.is_alnum. unfold Str.is_base36 in Hc. rewrite Hc. reflexivity.
Qed.

(** ** Reading a session back *)

Lemma select_session_expired now sessionId w :
  (∀ s, In s (api_sessions w) → session_id s = sessionId → session_expires_at s <= now) →
  DatabaseService.select_session now sessionId w = [].
Proof.
  unfold DatabaseService.select_session.
  induction (api_sessions w) as [|s rows IH]; intros Hall; simpl; [reflexivity|].
  rewrite IH by (intros s' Hin; apply Hall; right; exact Hin).
  destruct (String.eqb_spec (session_id s) sessionId) as [E|_]; simpl; [|reflexivity].
  assert (session_expires_at s <= now) by (apply Hall; [left; reflexivity | exact E]).
  assert ((now <? session_expires_at s) = false) as -> by lia. reflexivity.
Qed.

Lemma has_session_false sessionId rows s :
  DatabaseService.has_session sessionId rows = false →
  In s rows → session_id s ≠ sessionId.
Proof.
  unfold DatabaseService.has_session. intros Hno Hin E.
  assert (existsb (fun s => String.eqb (session_id s) sessionId) rows = true) as Hyes
    by (apply existsb_exists; exists s; split; [exact Hin | apply String.eqb_eq, E]).
  congruence.
Qed.

Lemma getCachedUserSession_entry now sessionId w doc deadline :
  redis w !! ("session:" +:+ sessionId) = Some (mkEntry (JsonText doc) (Some deadline)) →
  fst (RedisService.getCachedUserSession true now sessionId w)
  = Done (if now <=? deadline then Some (Object doc) else None).
Proof.
  intros Hk. unfold RedisService.getCachedUserSession, RedisService.getJSON,
    RedisService.get, RedisService.client_get.
  io_unfold. rewrite Hk. unfold RedisService.live. simpl.
  destruct (now <=? deadline); reflexivity.
Qed.

Section Tokens.

Context (verifyMessage : string -> string -> option string) (JWT_SECRET : string).

(** C5 (amended).  The durable read filters on the expiry: when every row of
    the identifier has [expires_at <= now], [getSession] finds nothing.  The
    cache read checks no expiry, and the cached object carries none.  On a
    connected Redis, what [cacheUserSession] stored under an identifier is
    what [getCachedUserSession] answers, the object as it was cached, at every
    instant up to the deadline of the key, which is the TTL counted from the
    Redis clock at the write; the write does not look at the session table.
    For a session created by connect with the cache write done, the row
    records seven days from the clock read before the insert and the key is
    dropped seven days from the Redis clock at the later write: from the
    recorded expiry on the durable read finds nothing, until the key is
    dropped the cache read answers with the user of the reply, and so, when
    the Redis clock at the write is past the clock read for the row, the
    cache read still answers at the recorded expiry, where the durable read
    finds nothing. *)
Theorem expiry_on_read :
  (∀ now sessionId w,
     (∀ s, In s (api_sessions w) → session_id s = sessionId → session_expires_at s <= now) →
     fst (DatabaseService.getSession true now sessionId w) = Done None) ∧
  (∀ cached_at sessionId userData ttl w now,
     0 < ttl →
     let w' := snd (RedisService.cacheUserSession true cached_at sessionId userData ttl w) in
     api_sessions w' = api_sessions w ∧
     fst (RedisService.getCachedUserSession true now sessionId w')
     = Done (if now <=? cached_at + ttl * 1000 then Some (Object userData) else None)) ∧
  (∀ env body w ok,
     fst (connect verifyMessage JWT_SECRET env body w) = Json ok →
     connect_redis_up env = true →
     let w' := snd (connect verifyMessage JWT_SECRET env body w) in
     let recorded := connect_expires_now env + 7 * 24 * 60 * 60 * 1000 in
     let dropped := connect_redis_now env + 7 * 24 * 60 * 60 * 1000 in
     let cached := mkPayload (view_id (ok_user ok)) (view_walletAddress (ok_user ok))
                     (view_username (ok_user ok)) in
     (∃ row, In row (api_sessions w') ∧ session_id row = ok_sessionId ok ∧
             session_expires_at row = recorded) ∧
     (∀ now,
        (recorded <= now →
           fst (DatabaseService.getSession true now (ok_sessionId ok) w') = Done None) ∧
        fst (RedisService.getCachedUserSession true now (ok_sessionId ok) w')
        = Done (if now <=? dropped then Some (Object cached) else None)) ∧
     (connect_expires_now env < connect_redis_now env →
        fst (DatabaseService.getSession true recorded (ok_sessionId ok) w') = Done None ∧
        fst (RedisService.getCachedUserSession true recorded (ok_sessionId ok) w')
        = Done (Some (Object cached)))).
Proof.
  split; [|split].
  - intros now sessionId w Hall. unfold DatabaseService.getSession. io_unfold. simpl.
    rewrite (select_session_expired now sessionId w Hall). reflexivity.
  - intros cached_at sessionId userData ttl w now Hpos w'. subst w'.
    rewrite (cacheUserSession_world true cached_at sessionId userData ttl w Hpos).
    split; [reflexivity|].
    apply getCachedUserSession_entry. simpl. apply lookup_insert_eq.
  - intros env body w ok Hok Hup w' recorded dropped cached.
    destruct (connect_cases verifyMessage JWT_SECRET env body w)
      as [[_ Hno] | (user & w1 & _ & _ & _ & Hsess & [(_ & _ & Herr) | (Ec & Hr & Hw)])].
    { exfalso. exact (Hno ok Hok). }
    { rewrite Herr in Hok. discriminate. }
    rewrite Hr in Hok. injection Hok as <-. fold w' in Hw.
    rewrite Hup in Hw. subst cached. cbn [ok_sessionId ok_user connect_ok view_id
      view_walletAddress view_username].
    set (sid := generateSessionId (connect_sid_now env) (connect_sid_random env)) in *.
    destruct (createSession_cases (connect_db_session_up env) sid (user_id user)
                (user_wallet_address user) recorded w1)
      as [(_ & _ & Hfree & _) | (e & Ee & _)];
      [|simpl in Ec; fold recorded in Ec; rewrite Ee in Ec; discriminate].
    assert (api_sessions w' =
            (api_sessions w1 ++ [mkSession sid (user_id user) (user_wallet_address user)
                                   recorded])%list) as Hrows by (rewrite Hw; reflexivity).
    assert (∀ now,
              (recorded <= now →
                 fst (DatabaseService.getSession true now sid w') = Done None) ∧
              fst (RedisService.getCachedUserSession true now sid w')
              = Done (if now <=? dropped
                      then Some (Object (mkPayload (user_id user) (user_wallet_address user)
                                           (user_username user)))
                      else None)) as Hread.
    { intros now. split.
      - intros Hpast. unfold DatabaseService.getSession. io_unfold. simpl.
        rewrite select_session_expired; [reflexivity|].
        intros s Hin Hid. rewrite Hrows in Hin. apply in_app_or in Hin as [Hin | [<- | []]].
        + exfalso. exact (has_session_false sid _ s Hfree Hin Hid).
        + exact Hpast.
      - apply getCachedUserSession_entry. rewrite Hw. simpl. apply lookup_insert_eq. }
    split; [|split].
    + eexists. split; [rewrite Hrows; apply in_or_app; right; left; reflexivity|].
      split; reflexivity.
    + exact Hread.
    + intros Hlater. destruct (Hread recorded) as [Hdurable Hcache].
      split; [apply Hdurable; lia|]. rewrite Hcache.
      assert ((recorded <=? dropped) = true) as -> by (subst recorded dropped; lia).
      reflexivity.
Qed.

(** C1 (amended).  refresh verifies the signature and the expiry of the token
    and nothing else.  An expired token, refresh or access, is answered with
    401 INVALID_REFRESH_TOKEN, the code that a badly signed token gets too, and
    no token is issued.  An access token that has not expired is treated as the
    refresh token signed with it: when the wallet of its claims resolves, a
    new access token is issued. *)
Theorem refresh_ignores_token_kind env w issued holder :
  let access := accessTokenFor JWT_SECRET issued holder in
  let refreshToken := refreshTokenFor JWT_SECRET issued holder in
  let now := refresh_verify_now env in
  let invalid := Error 401 "Invalid refresh token" "INVALID_REFRESH_TOKEN" in
  (issued / 1000 + 604800 <= now / 1000 →
     refresh JWT_SECRET env refreshToken w = (invalid, w)) ∧
  (issued / 1000 + 3600 <= now / 1000 →
     refresh JWT_SECRET env access w = (invalid, w)) ∧
  (∀ key payload raw, key ≠ JWT_SECRET →
     refresh JWT_SECRET env (jwt.Jws key payload) w = (invalid, w) ∧
     refresh JWT_SECRET env (jwt.Garbled raw) w = (invalid, w)) ∧
  (now / 1000 < issued / 1000 + 3600 →
     refresh JWT_SECRET env access w = refresh JWT_SECRET env refreshToken w ∧
     ∀ user,
       refresh_db_up env = true →
       DatabaseService.find_user (user_wallet_address holder) (users w) = Some user →
       refresh JWT_SECRET env access w
       = (Json (accessTokenFor JWT_SECRET (refresh_jwt_now env) user), w)).
Proof.
  intros access refreshToken now invalid.
  subst access refreshToken now invalid.
  unfold refresh, refresh_try, accessTokenFor, refreshTokenFor, jwt.sign, jwt.verify.
  io_unfold. rewrite String.eqb_refl. cbn [negb jwt.payload_exp].
  split; [|split; [|split]].
  - intros Hexp.
    assert ((issued / 1000 + 604800 <=? refresh_verify_now env / 1000) = true) as -> by lia.
    reflexivity.
  - intros Hexp.
    assert ((issued / 1000 + 3600 <=? refresh_verify_now env / 1000) = true) as -> by lia.
    reflexivity.
  - intros key payload raw Hkey. apply String.eqb_neq in Hkey. rewrite Hkey.
    split; reflexivity.
  - intros Hlive.
    assert ((issued / 1000 + 3600 <=? refresh_verify_now env / 1000) = false) as -> by lia.
    assert ((issued / 1000 + 604800 <=? refresh_verify_now env / 1000) = false) as -> by lia.
    split; [reflexivity|]. intros user Hup Hfind.
    unfold DatabaseService.getUserByWallet. rewrite Hup. io_unfold. simpl.
    rewrite Hfind. reflexivity.
Qed.

End Tokens.

(** * The properties on the worked example *)

(** C3, counterexample.  A signature cut to four bytes passes the schema (a
    non-empty string) and makes [ethers.verifyMessage] throw; the reply is the
    generic 500, not a kind of its own. *)
Lemma truncated_signature_is_internal_error :
  wallet_pattern (body_walletAddress Demo.truncated_request) = true ∧
  Demo.verifyMessage (body_message Demo.truncated_request)
    (body_signature Demo.truncated_request) = None ∧
  fst (connect Demo.verifyMessage Demo.JWT_SECRET (Demo.env_at Demo.now)
         Demo.truncated_request Demo.empty_world)
  = Error 500 "Internal server error" "INTERNAL_ERROR".
Proof. vm_compute. repeat split. Qed.

Lemma connect_unrecoverable_signature_witness :
  Demo.verifyMessage (body_message Demo.truncated_request)
    (body_signature Demo.truncated_request) = None ∧
  connect Demo.verifyMessage Demo.JWT_SECRET (Demo.env_at Demo.now)
    Demo.truncated_request Demo.alice_world
  = (Error 500 "Internal server error" "INTERNAL_ERROR", Demo.alice_world).
Proof.
  split; [reflexivity|].
  apply (connect_unrecoverable_signature Demo.verifyMessage Demo.JWT_SECRET).
  reflexivity.
Defined.

(** C4, counterexample.  An old message that the stranger has signed,
    submitted under Alice's address: the signature recovers the stranger's
    address, and the reply is INVALID_SIGNATURE, not MESSAGE_EXPIRED. *)
Lemma forged_stale_request_is_invalid_signature :
  fiveMinutes < Demo.now - extractTimestampFromMessage (body_message Demo.forged_stale_request) ∧
  body_walletAddress Demo.forged_stale_request = Demo.alice ∧
  Demo.verifyMessage (body_message Demo.forged_stale_request)
    (body_signature Demo.forged_stale_request) = Some Demo.stranger ∧
  fst (connect Demo.verifyMessage Demo.JWT_SECRET (Demo.env_at Demo.now)
         Demo.forged_stale_request Demo.empty_world)
  = Error 401 "Invalid signature" "INVALID_SIGNATURE" ∧
  fst (connect Demo.verifyMessage Demo.JWT_SECRET (Demo.env_at Demo.now)
         Demo.forged_stale_request Demo.empty_world)
  ≠ Error 401 "Message expired" "MESSAGE_EXPIRED".
Proof. vm_compute. repeat split; discriminate. Qed.

Lemma connect_stale_message_witness :
  fiveMinutes < Demo.now - extractTimestampFromMessage (body_message Demo.stale_request) ∧
  connect Demo.verifyMessage Demo.JWT_SECRET (Demo.env_at Demo.now)
    Demo.stale_request Demo.empty_world
  = (Error 401 "Message expired" "MESSAGE_EXPIRED", Demo.empty_world).
Proof.
  split; [reflexivity|].
  exact (connect_stale_message Demo.verifyMessage Demo.JWT_SECRET (Demo.env_at Demo.now)
           Demo.stale_request Demo.empty_world eq_refl).
Defined.




(** A username of three characters, the last of them U+0000, is within the
    connect schema; the insert into [users] fails on it, and connect answers
    500 without a write although the signature and the timestamp are good. *)
Example nul_username_is_refused :
  connect Demo.verifyMessage Demo.JWT_SECRET (Demo.env_at Demo.now)
    (mkConnectBody Demo.alice Demo.fresh_signature Demo.fresh_message
       (Some ("ab" +:+ Demo.nul)) None)
    Demo.empty_world
  = (Error 500 "Internal server error" "INTERNAL_ERROR", Demo.empty_world).
Proof. vm_compute. reflexivity. Qed.

Lemma durable_row_before_cache_entry_witness :
  let env := mkConnectEnv Demo.now true Demo.now Demo.now Demo.now Demo.now "0.4fzyo82mvyr"
               Demo.now true false Demo.now in
  let after := connect Demo.verifyMessage Demo.JWT_SECRET env Demo.fresh_request
                 Demo.empty_world in
  (∃ ok, fst after = Json ok) ∧
  redis (snd after) = ∅ ∧
  DatabaseService.has_session "sess_1700000001000_4fzyo82mv" (api_sessions (snd after)) = true.
Proof.
  intros env after.
  pose proof (durable_row_before_cache_entry Demo.verifyMessage Demo.JWT_SECRET env
                Demo.fresh_request Demo.empty_world) as (_ & _ & H).
  specialize (H Demo.alice
                (mkUser 1 Demo.alice None None "{}" Demo.now Demo.now)
                (mkWorld [mkUser 1 Demo.alice None None "{}" Demo.now Demo.now] 2 [] ∅
                   [DbUpsertUser Demo.alice])
                eq_refl eq_refl eq_refl eq_refl).
  destruct H as [Hiff Hdown].
  split; [apply Hiff; eexists _, _; reflexivity|].
  destruct (Hdown _ _ eq_refl eq_refl) as [_ Hw].
  subst after. rewrite Hw. split; reflexivity.
Defined.

Lemma disconnect_idempotent_witness :
  let up := mkDisconnectEnv true true in
  let w := snd (connect Demo.verifyMessage Demo.JWT_SECRET (Demo.env_at Demo.now)
                  Demo.fresh_request Demo.empty_world) in
  DatabaseService.has_session Demo.sid (api_sessions w) = true ∧
  is_Some (redis w !! ("session:" +:+ Demo.sid)) ∧
  fst (disconnect up (Some Demo.sid) w) = Json "Disconnected successfully" ∧
  fst (disconnect up (Some Demo.sid) (snd (disconnect up (Some Demo.sid) w)))
  = Json "Disconnected successfully" ∧
  DatabaseService.has_session Demo.sid
    (api_sessions (snd (disconnect up (Some Demo.sid) w))) = false ∧
  redis (snd (disconnect up (Some Demo.sid) (snd (disconnect up (Some Demo.sid) w))))
    !! ("session:" +:+ Demo.sid) = None.
Proof.
  intros up w.
  assert (Demo.sid ≠ "") as Hne by discriminate.
  pose proof (disconnect_idempotent up up Demo.sid w Hne eq_refl eq_refl)
    as (H1 & H2 & H3 & _ & _ & _ & H7 & _).
  split; [reflexivity|]. split; [vm_compute; eauto|].
  split; [exact H1|]. split; [exact H2|]. split; [exact H3|].
  apply H7. left; reflexivity.
Defined.


(** C9, counterexample.  [Math.random()] may return 0.5, which radix 36
    renders as ["0.i"]: the nonce is the single character ["i"]. *)
Lemma nonce_of_one_character :
  random_rendering "0.i" = true ∧
  wallet_pattern Demo.alice = true ∧
  ∃ ok,
    fst (issueChallenge (mkNonceEnv "0.i" Demo.now true Demo.now) Demo.alice
           Demo.empty_world) = Json ok ∧
    nonce_nonce ok = "i" ∧
    ¬ (15 ≤ String.length (nonce_nonce ok))%nat.
Proof.
  split; [reflexivity|]. split; [reflexivity|].
  eexists. split; [vm_compute; reflexivity|]. split; [reflexivity|]. simpl. lia.
Qed.

Lemma nonce_at_most_15_witness :
  ∃ ok,
    fst (issueChallenge (mkNonceEnv "0.4fzyo82mvyr" Demo.now true Demo.now) Demo.alice
           Demo.empty_world) = Json ok ∧
    nonce_nonce ok = "4fzyo82mvyr" ∧
    (String.length (nonce_nonce ok) ≤ 15)%nat.
Proof.
  destruct (nonce_at_most_15 (mkNonceEnv "0.4fzyo82mvyr" Demo.now true Demo.now) Demo.alice
              Demo.empty_world eq_refl eq_refl) as (ok & Hok & Hnonce & Hlen & _).
  exists ok. split; [exact Hok|]. split; [exact Hnonce | exact Hlen].
Defined.

(** C5, counterexample.  Alice's session row is inserted with the expiry
    computed at [Demo.now + 3]; the cache write reaches a connected Redis five
    milliseconds later, with the same seven days as TTL.  Two milliseconds
    after the recorded expiry the durable read finds nothing and the cache
    read still answers with the cached object. *)
Lemma cache_hit_after_recorded_expiry :
  let recorded := Demo.now + 3 + 604800000 in
  let cached := mkPayload 1 Demo.alice (Some "alice") in
  let w1 := snd (DatabaseService.createSession true Demo.sid 1 Demo.alice recorded
                   Demo.alice_world) in
  let w2 := snd (RedisService.cacheUserSession true (Demo.now + 8) Demo.sid cached 604800
                   w1) in
  api_sessions w2 = [mkSession Demo.sid 1 Demo.alice recorded] ∧
  fst (DatabaseService.getSession true (recorded + 2) Demo.sid w2) = Done None ∧
  fst (RedisService.getCachedUserSession true (recorded + 2) Demo.sid w2)
  = Done (Some (Object cached)).
Proof. vm_compute. repeat split. Qed.

Lemma expiry_on_read_witness :
  let recorded := Demo.now + 3 + 604800000 in
  let cached := mkPayload 1 Demo.alice (Some "alice") in
  let w1 := snd (DatabaseService.createSession true Demo.sid 1 Demo.alice recorded
                   Demo.alice_world) in
  let w2 := snd (RedisService.cacheUserSession true (Demo.now + 8) Demo.sid cached 604800
                   w1) in
  fst (DatabaseService.getSession true recorded Demo.sid w2) = Done None ∧
  fst (RedisService.getCachedUserSession true (Demo.now + 8 + 604800000) Demo.sid w2)
  = Done (Some (Object cached)) ∧
  fst (RedisService.getCachedUserSession true (Demo.now + 9 + 604800000) Demo.sid w2)
  = Done None.
Proof.
  intros recorded cached w1 w2.
  pose proof (expiry_on_read Demo.verifyMessage Demo.JWT_SECRET) as (Hdurable & Hcache & _).
  split; [|split].
  - apply Hdurable. intros s [<- | []] _. simpl. lia.
  - exact (proj2 (Hcache (Demo.now + 8) Demo.sid cached 604800 w1
                    (Demo.now + 8 + 604800000) eq_refl)).
  - exact (proj2 (Hcache (Demo.now + 8) Demo.sid cached 604800 w1
                    (Demo.now + 9 + 604800000) eq_refl)).
Defined.

(** C1, counterexample.  The access token that connect hands out is accepted
    by refresh a minute later, and a new access token comes back. *)
Lemma access_token_is_refreshed :
  let env := mkRefreshEnv (Demo.now + 60000) true (Demo.now + 60001) in
  ∃ ok w,
    connect Demo.verifyMessage Demo.JWT_SECRET (Demo.env_at Demo.now)
      Demo.fresh_request Demo.alice_world = (Json ok, w) ∧
    jwt.claim_username
      match ok_accessToken ok with
      | jwt.Jws _ payload => jwt.payload_claims payload
      | jwt.Garbled _ => jwt.mkClaims 0 "" None
      end = Some (Some "alice") ∧
    fst (refresh Demo.JWT_SECRET env (ok_accessToken ok) w)
    = Json (accessTokenFor Demo.JWT_SECRET (Demo.now + 60001)
              (mkUser 1 Demo.alice (Some "alice") (Some "alice@example.org") "{}"
                 1700000000000 (Demo.now + 1))) ∧
    fst (refresh Demo.JWT_SECRET env (ok_accessToken ok) w)
    ≠ Error 401 "Invalid refresh token" "INVALID_REFRESH_TOKEN".
Proof.
  intros env. eexists _, _. split; [vm_compute; reflexivity|].
  vm_compute. repeat split; discriminate.
Qed.

Lemma refresh_ignores_token_kind_witness :
  let week_later := mkRefreshEnv (Demo.now + 604800000) true (Demo.now + 604800001) in
  let minute_later := mkRefreshEnv (Demo.now + 60000) true (Demo.now + 60001) in
  refresh Demo.JWT_SECRET week_later
    (refreshTokenFor Demo.JWT_SECRET Demo.now Demo.alice_row) Demo.alice_world
  = (Error 401 "Invalid refresh token" "INVALID_REFRESH_TOKEN", Demo.alice_world) ∧
  refresh Demo.JWT_SECRET minute_later
    (accessTokenFor Demo.JWT_SECRET Demo.now Demo.alice_row) Demo.alice_world
  = (Json (accessTokenFor Demo.JWT_SECRET (Demo.now + 60001) Demo.alice_row),
     Demo.alice_world).
Proof.
  intros week_later minute_later. split.
  - refine (proj1 (refresh_ignores_token_kind Demo.JWT_SECRET week_later Demo.alice_world
                     Demo.now Demo.alice_row) _).
    vm_compute; discriminate.
  - refine (proj2 (proj2 (proj2 (proj2 (refresh_ignores_token_kind Demo.JWT_SECRET
              minute_later Demo.alice_world Demo.now Demo.alice_row))) _)
              Demo.alice_row eq_refl eq_refl).
    vm_compute; reflexivity.
Defined.

(** * Further properties of the routes and the two services *)

(** ** The nonce route *)

(** The text of the challenge for an address, a nonce and a timestamp. *)
Definition challenge_text (walletAddress nonce : string) (timestamp : Z) : string :=
  "Sign this message to connect to PsyFi:" +:+ newline +:+ newline +:+
  "Wallet: " +:+ walletAddress +:+ newline +:+
  "Nonce: " +:+ nonce +:+ newline +:+
  "Timestamp: " +:+ pretty timestamp.

Lemma hex_not_T c : Str.is_hex c = true → not_T c = true.
Proof. destruct c as [[] [] [] [] [] [] [] []]; vm_compute; congruence. Qed.

Lemma base36_not_T c : Str.is_base36 c = true → not_T c = true.
Proof. destruct c as [[] [] [] [] [] [] [] []]; vm_compute; congruence. Qed.

Lemma match_here_not_T c s : not_T c = true → match_here (String c s) = None.
Proof.
  intros Hc. unfold match_here.
  change (Str.strip "Timestamp: " (String c s))
    with (if Ascii.eqb "T" c then Str.strip "imestamp: " s else None).
  destruct (Ascii.eqb_spec "T" c) as [<-|_]; [discriminate Hc | reflexivity].
Qed.

Lemma timestampMatch_skip p s :
  Str.all not_T p = true → timestampMatch (p +:+ s) = timestampMatch s.
Proof.
  induction p as [|c p IH]; [reflexivity|]. simpl Str.all.
  intros [Hc Hp]%andb_true_iff. rewrite timestampMatch_unfold.
  change (String c p +:+ s) with (String c (p +:+ s)).
  rewrite (match_here_not_T c _ Hc). apply IH, Hp.
Qed.

Lemma timestampMatch_literal ds :
  ds ≠ "" → Str.all Str.is_digit ds = true →
  timestampMatch ("Timestamp: " +:+ ds) = Some ds.
Proof.
  intros Hne Hall. rewrite timestampMatch_unfold. unfold match_here.
  assert (Str.strip "Timestamp: " ("Timestamp: " +:+ ds) = Some ds) as ->
    by (apply strip_spec; reflexivity).
  rewrite (digits_all ds Hall). destruct ds; [contradiction | reflexivity].
Qed.

Lemma wallet_pattern_not_T walletAddress :
  wallet_pattern walletAddress = true → Str.all not_T walletAddress = true.
Proof.
  unfold wallet_pattern. destruct (Str.strip "0x" walletAddress) as [hex|] eqn:Hs;
    [|discriminate].
  apply strip_spec in Hs as ->. intros [_ Hhex]%andb_true_iff.
  rewrite all_app. simpl. exact (all_weaken _ _ _ hex_not_T Hhex).
Qed.

Lemma substr_rendering len r :
  random_rendering r = true → Str.all Str.is_base36 (Str.substr 2 len r) = true.
Proof.
  unfold random_rendering, Str.substr. intros [E | H]%orb_true_iff.
  - apply String.eqb_eq in E as ->. destruct len; reflexivity.
  - destruct (Str.strip "0." r) as [ds|] eqn:Hs; [|discriminate].
    apply strip_spec in Hs as ->. apply andb_true_iff in H as [_ Hall].
    simpl. apply all_substring_0, Hall.
Qed.

Lemma challenge_text_timestamp walletAddress nonce timestamp :
  Str.all not_T walletAddress = true → Str.all not_T nonce = true → 0 <= timestamp →
  extractTimestampFromMessage (challenge_text walletAddress nonce timestamp) = timestamp.
Proof.
  intros Hw Hn Ht. destruct (pretty_decimal timestamp Ht) as (Hall & Hne & Hparse).
  unfold extractTimestampFromMessage, challenge_text.
  rewrite (timestampMatch_skip "Sign this message to connect to PsyFi:") by reflexivity.
  rewrite 2!(timestampMatch_skip newline) by reflexivity.
  rewrite (timestampMatch_skip "Wallet: ") by reflexivity.
  rewrite (timestampMatch_skip walletAddress) by exact Hw.
  rewrite (timestampMatch_skip newline) by reflexivity.
  rewrite (timestampMatch_skip "Nonce: ") by reflexivity.
  rewrite (timestampMatch_skip nonce) by exact Hn.
  rewrite (timestampMatch_skip newline) by reflexivity.
  rewrite (timestampMatch_literal _ Hne Hall). exact Hparse.
Qed.

(** What the nonce route answers and leaves behind for a well-formed address. *)
Lemma issueChallenge_valid env walletAddress w :
  wallet_pattern walletAddress = true →
  let nonce := generateNonce (nonce_random env) in
  issueChallenge env walletAddress w =
  (Json (mkNonceOk (challenge_text walletAddress nonce (nonce_now env)) nonce (nonce_now env)),
   if nonce_redis_up env
   then log (RedisSet ("nonce:" +:+ walletAddress))
          (set_redis (insert ("nonce:" +:+ walletAddress)
                        (mkEntry (Text nonce) (Some (nonce_redis_now env + 300 * 1000)))) w)
   else w).
Proof.
  intros Hpat nonce. unfold issueChallenge, nonce_try. rewrite Hpat.
  unfold RedisService.set, RedisService.client_setEx. io_unfold.
  destruct (nonce_redis_up env); reflexivity.
Qed.

(** X1.  The timestamp the nonce route puts into the message is the one
    connect reads out of it: for a well-formed address, a radix-36 rendering
    of the random number and a clock that is not negative,
    [extractTimestampFromMessage] of the issued message is the issued
    timestamp. *)
Theorem issued_timestamp_reads_back env walletAddress w :
  wallet_pattern walletAddress = true →
  random_rendering (nonce_random env) = true →
  0 <= nonce_now env →
  ∃ ok,
    fst (issueChallenge env walletAddress w) = Json ok ∧
    nonce_timestamp ok = nonce_now env ∧
    extractTimestampFromMessage (nonce_message ok) = nonce_now env.
Proof.
  intros Hpat Hr Ht. rewrite (issueChallenge_valid env walletAddress w Hpat).
  eexists. split; [reflexivity|]. split; [reflexivity|]. cbn [nonce_message].
  apply challenge_text_timestamp; [apply wallet_pattern_not_T, Hpat | | exact Ht].
  exact (all_weaken _ _ _ base36_not_T (substr_rendering 15 _ Hr)).
Qed.

(** X2.  The nonce route never fails on its store.  An address that does not
    match the pattern gets 400 INVALID_WALLET_ADDRESS and nothing is written;
    an address that matches gets a message and a nonce whether or not Redis
    took the write, and when it did not, the nonce is in no store. *)
Theorem nonce_route_answers env walletAddress w :
  (wallet_pattern walletAddress = false →
     issueChallenge env walletAddress w
     = (Error 400 "Invalid wallet address format" "INVALID_WALLET_ADDRESS", w)) ∧
  (wallet_pattern walletAddress = true →
     (∃ ok, fst (issueChallenge env walletAddress w) = Json ok ∧
            nonce_nonce ok = generateNonce (nonce_random env)) ∧
     (nonce_redis_up env = false → snd (issueChallenge env walletAddress w) = w)).
Proof.
  split.
  - intros Hpat. unfold issueChallenge, nonce_try. rewrite Hpat. reflexivity.
  - intros Hpat. rewrite (issueChallenge_valid env walletAddress w Hpat). split.
    + eexists. split; reflexivity.
    + intros ->. reflexivity.
Qed.

(** X3.  A stored nonce lives 300 seconds and a new challenge replaces it.
    After a challenge whose write reached Redis, [get] of [nonce:{address}]
    returns the nonce exactly while the Redis clock is at most 300 000 ms
    past the write; after a second challenge for the same address it returns
    the second nonce, with the lifetime counted from the second write. *)
Theorem nonce_lifetime env1 env2 walletAddress w now :
  wallet_pattern walletAddress = true →
  nonce_redis_up env1 = true → nonce_redis_up env2 = true →
  let key := "nonce:" +:+ walletAddress in
  let once := snd (issueChallenge env1 walletAddress w) in
  let twice := snd (issueChallenge env2 walletAddress once) in
  fst (RedisService.get true now key once)
  = Done (if now <=? nonce_redis_now env1 + 300000
          then Some (Text (generateNonce (nonce_random env1))) else None) ∧
  fst (RedisService.get true now key twice)
  = Done (if now <=? nonce_redis_now env2 + 300000
          then Some (Text (generateNonce (nonce_random env2))) else None).
Proof.
  intros Hpat Hup1 Hup2 key once twice. subst once twice.
  rewrite !(issueChallenge_valid _ walletAddress _ Hpat), Hup1, Hup2. cbn [snd].
  unfold RedisService.get, RedisService.client_get. io_unfold. simpl. fold key.
  rewrite !lookup_insert_eq. unfold RedisService.live. simpl. split; reflexivity.
Qed.

(** ** Table constraints *)

(** The constraints of init.sql that the statements rely on: [users.id] is a
    key drawn from a sequence that is ahead of every id, [wallet_address] and
    [session_id] are unique, and [api_sessions.user_id] references a user. *)
Definition consistent (w : World) : Prop :=
  NoDup (map user_id (users w)) ∧
  NoDup (map user_wallet_address (users w)) ∧
  Forall (fun u => user_id u < users_id_seq w) (users w) ∧
  NoDup (map session_id (api_sessions w)) ∧
  Forall (fun s => DatabaseService.has_user_id (session_user_id s) (users w) = true)
    (api_sessions w).

Lemma find_user_None walletAddress rows :
  DatabaseService.find_user walletAddress rows = None ↔
  ¬ In walletAddress (map user_wallet_address rows).
Proof.
  unfold DatabaseService.find_user. induction rows as [|r rows IH]; simpl.
  - split; [intros _ [] | reflexivity].
  - rewrite filter_cons. case_decide as E; simpl.
    + split; [discriminate | intros H; exfalso; apply H; left; exact E].
    + rewrite IH. tauto.
Qed.

Lemma find_user_Some walletAddress rows row :
  DatabaseService.find_user walletAddress rows = Some row →
  In row rows ∧ user_wallet_address row = walletAddress.
Proof.
  unfold DatabaseService.find_user. induction rows as [|r rows IH]; simpl; [discriminate|].
  rewrite filter_cons. case_decide as E; simpl.
  - intros [= <-]. split; [left; reflexivity | exact E].
  - intros H. destruct (IH H) as [Hin Hw]. split; [right; exact Hin | exact Hw].
Qed.

(** The keys of the table after the upsert: unchanged when a row had the
    address, one more row with the drawn id otherwise. *)
Lemma upsert_user_keys now nextval walletAddress username email rows :
  let (row, rows') :=
    DatabaseService.upsert_user now nextval walletAddress username email rows in
  (is_Some (DatabaseService.find_user walletAddress rows) ∧
   map user_id rows' = map user_id rows ∧
   map user_wallet_address rows' = map user_wallet_address rows)
  ∨
  (DatabaseService.find_user walletAddress rows = None ∧
   rows' = (rows ++ [row])%list ∧ user_id row = nextval ∧
   user_wallet_address row = walletAddress).
Proof.
  unfold DatabaseService.find_user. induction rows as [|r rest IH]; simpl.
  - right. repeat split.
  - destruct (String.eqb_spec (user_wallet_address r) walletAddress) as [E|Hne].
    + left. rewrite filter_cons. case_decide; [|contradiction]. simpl. eauto.
    + destruct (DatabaseService.upsert_user _ _ _ _ _ rest) as [row rest'].
      rewrite filter_cons. case_decide; [contradiction|].
      destruct IH as [(Hs & Hi & Hw) | (Hn & -> & Hid & Hw)].
      * left. simpl. rewrite Hi, Hw. eauto.
      * right. repeat split; assumption.
Qed.

Lemma has_user_id_map id rows rows' :
  map user_id rows' = map user_id rows →
  DatabaseService.has_user_id id rows' = DatabaseService.has_user_id id rows.
Proof.
  unfold DatabaseService.has_user_id.
  revert rows'; induction rows as [|r rows IH]; intros [|r' rows']; simpl;
    try discriminate; [reflexivity|].
  intros [= Hid Hrest]. rewrite Hid, (IH rows' Hrest). reflexivity.
Qed.

Lemma has_user_id_app id rows row :
  DatabaseService.has_user_id id rows = true →
  DatabaseService.has_user_id id (rows ++ [row]) = true.
Proof.
  unfold DatabaseService.has_user_id. rewrite existsb_app. intros ->. reflexivity.
Qed.

Lemma has_session_In sessionId rows :
  DatabaseService.has_session sessionId rows = false ↔
  ¬ In sessionId (map session_id rows).
Proof.
  unfold DatabaseService.has_session. induction rows as [|s rows IH]; simpl.
  - split; [intros _ [] | reflexivity].
  - rewrite orb_false_iff, IH, String.eqb_neq. tauto.
Qed.

(** What a successful [createUser] says about the two worlds. *)
Lemma createUser_inv up now walletAddress username email w user w1 :
  DatabaseService.createUser up now walletAddress username email w = (Done user, w1) →
  up = true ∧
  DatabaseService.upsert_user now (users_id_seq w) walletAddress username email (users w)
  = (user, users w1) ∧
  users_id_seq w1 = 1 + users_id_seq w ∧
  api_sessions w1 = api_sessions w ∧ redis w1 = redis w ∧
  DatabaseService.users_columns walletAddress username email = true.
Proof.
  unfold DatabaseService.createUser. destruct up; [|discriminate].
  destruct (DatabaseService.users_columns _ _ _); [|discriminate].
  destruct (DatabaseService.upsert_user _ _ _ _ _ (users w)) as [row rows].
  intros [= <- <-]. repeat split.
Qed.

Lemma createUser_consistent up now walletAddress username email w user w1 :
  DatabaseService.createUser up now walletAddress username email w = (Done user, w1) →
  consistent w → consistent w1.
Proof.
  intros Hc (Hid & Hwa & Hseq & Hsid & Hfk).
  destruct (createUser_inv _ _ _ _ _ _ _ _ Hc) as (_ & Hup & Hq & Hs & _).
  pose proof (upsert_user_keys now (users_id_seq w) walletAddress username email (users w))
    as Hkeys.
  rewrite Hup in Hkeys. unfold consistent. rewrite Hs, Hq.
  destruct Hkeys as [(_ & Hi & Hw) | (Hn & Hrows & Hnew & Hwn)].
  - rewrite Hi, Hw. repeat split; try assumption.
    + apply List.Forall_forall. intros u Hu.
      assert (In (user_id u) (map user_id (users w))) as Hin
        by (rewrite <- Hi; apply in_map, Hu).
      apply in_map_iff in Hin as (u0 & <- & Hu0).
      rewrite List.Forall_forall in Hseq. specialize (Hseq u0 Hu0). lia.
    + eapply List.Forall_impl; [|exact Hfk]. intros s Hs0. simpl in Hs0.
      rewrite (has_user_id_map _ _ _ Hi). exact Hs0.
  - rewrite Hrows, !map_app. simpl. rewrite Hnew, Hwn. repeat split.
    + apply NoDup_app. split; [exact Hid|]. split; [|apply NoDup_singleton].
      intros i Hi [<-|[]]%list_elem_of_In.
      apply list_elem_of_In, in_map_iff in Hi as (u & Hu & Hin).
      rewrite List.Forall_forall in Hseq. specialize (Hseq u Hin). lia.
    + apply NoDup_app. split; [exact Hwa|]. split; [|apply NoDup_singleton].
      intros a Ha [<-|[]]%list_elem_of_In. apply list_elem_of_In in Ha.
      apply find_user_None in Hn. contradiction.
    + apply Forall_app. split.
      * eapply List.Forall_impl; [|exact Hseq]. intros u Hu. simpl in Hu. lia.
      * constructor; [simpl; lia | constructor].
    + assumption.
    + eapply List.Forall_impl; [|exact Hfk]. intros s Hs0. apply has_user_id_app, Hs0.
Qed.

(** ** A session from connect to disconnect *)

(** The row connect inserts for a user, and the world it leaves once the user
    row is in [w1]. *)
Definition session_row (env : ConnectEnv) (user : UserRow) : SessionRow :=
  mkSession (generateSessionId (connect_sid_now env) (connect_sid_random env))
    (user_id user) (user_wallet_address user)
    (connect_expires_now env + 7 * 24 * 60 * 60 * 1000).

Definition session_entry (env : ConnectEnv) (user : UserRow) : Entry :=
  mkEntry (JsonText (mkPayload (user_id user) (user_wallet_address user) (user_username user)))
    (Some (connect_redis_now env + 7 * 24 * 60 * 60 * 1000)).

Definition issued (env : ConnectEnv) (user : UserRow) (w1 : World) : World :=
  let sid := generateSessionId (connect_sid_now env) (connect_sid_random env) in
  let w2 := log (DbInsertSession sid)
              (set_api_sessions (fun rows => (rows ++ [session_row env user])%list) w1) in
  if connect_redis_up env
  then log (RedisSet ("session:" +:+ sid))
         (set_redis (insert ("session:" +:+ sid) (session_entry env user)) w2)
  else w2.

Lemma generateSessionId_nonempty now r : generateSessionId now r ≠ "".
Proof. discriminate. Qed.

Lemma createUser_found up now walletAddress username email w user w1 :
  DatabaseService.createUser up now walletAddress username email w = (Done user, w1) →
  DatabaseService.find_user walletAddress (users w1) = Some user ∧
  user_wallet_address user = walletAddress ∧ In user (users w1).
Proof.
  intros Hc. destruct (createUser_inv _ _ _ _ _ _ _ _ Hc) as (_ & Hup & _).
  pose proof (upsert_user_spec now (users_id_seq w) walletAddress username email (users w))
    as Hspec.
  rewrite Hup in Hspec. destruct Hspec as (_ & Hfind & _).
  split; [exact Hfind|]. apply find_user_Some in Hfind. tauto.
Qed.

Section Sessions.

Context (verifyMessage : string -> string -> option string) (JWT_SECRET : string).

(** A success of connect, read backwards. *)
Lemma connect_json env body w ok :
  fst (connect verifyMessage JWT_SECRET env body w) = Json ok →
  ∃ user w1,
    DatabaseService.createUser true (connect_db_user_now env) (body_walletAddress body)
      (body_username body) (body_email body) w = (Done user, w1) ∧
    ok = connect_ok JWT_SECRET env user ∧
    DatabaseService.has_session
      (generateSessionId (connect_sid_now env) (connect_sid_random env))
      (api_sessions w) = false ∧
    snd (connect verifyMessage JWT_SECRET env body w) = issued env user w1.
Proof.
  intros Hok.
  destruct (connect_cases verifyMessage JWT_SECRET env body w)
    as [[_ Hno] | (user & w1 & Hc & _ & _ & Hsess & [(_ & _ & Herr) | (Ec & Hr & Hw)])].
  { exfalso. exact (Hno ok Hok). }
  { rewrite Herr in Hok. discriminate. }
  rewrite Hr in Hok. injection Hok as <-.
  destruct (createUser_inv _ _ _ _ _ _ _ _ Hc) as (Hup & _). rewrite Hup in Hc.
  exists user, w1. split; [exact Hc|]. split; [reflexivity|]. split; [|exact Hw].
  destruct (createSession_cases (connect_db_session_up env)
              (generateSessionId (connect_sid_now env) (connect_sid_random env))
              (user_id user) (user_wallet_address user)
              (connect_expires_now env + 7 * 24 * 60 * 60 * 1000) w1)
    as [(_ & _ & Hfree & _) | (e & Ee & _)].
  - rewrite <- Hsess. exact Hfree.
  - simpl in Ec. rewrite Ee in Ec. discriminate.
Qed.


End Sessions.

Lemma issued_tables env user w1 :
  users (issued env user w1) = users w1 ∧
  users_id_seq (issued env user w1) = users_id_seq w1 ∧
  api_sessions (issued env user w1) = (api_sessions w1 ++ [session_row env user])%list ∧
  redis (issued env user w1) =
    if connect_redis_up env
    then <[ "session:" +:+ generateSessionId (connect_sid_now env) (connect_sid_random env)
            := session_entry env user ]> (redis w1)
    else redis w1.
Proof. unfold issued. destruct (connect_redis_up env); repeat split. Qed.

Lemma select_session_absent now sessionId w :
  DatabaseService.has_session sessionId (api_sessions w) = false →
  DatabaseService.select_session now sessionId w = [].
Proof.
  unfold DatabaseService.select_session, DatabaseService.has_session.
  induction (api_sessions w) as [|s rows IH]; simpl; [reflexivity|].
  intros [Hs Hrest]%orb_false_iff. rewrite Hs, (IH Hrest). reflexivity.
Qed.

Lemma filter_no_id id (rows : list UserRow) :
  ¬ In id (map user_id rows) → filter (fun u => user_id u = id) rows = [].
Proof.
  induction rows as [|u rows IH]; simpl; [reflexivity|]. intros Hno.
  rewrite filter_cons. case_decide; [exfalso; apply Hno; left; assumption|].
  apply IH. intros Hin. apply Hno. right. exact Hin.
Qed.

Lemma filter_unique_id user (rows : list UserRow) :
  NoDup (map user_id rows) → In user rows →
  filter (fun u => user_id u = user_id user) rows = [user].
Proof.
  induction rows as [|u rows IH]; simpl; [intros _ []|].
  intros [Hfresh Hnd]%NoDup_cons Hin. rewrite list_elem_of_In in Hfresh.
  rewrite filter_cons. destruct Hin as [-> | Hin].
  - case_decide; [|contradiction]. rewrite (filter_no_id _ _ Hfresh). reflexivity.
  - case_decide as E; [|exact (IH Hnd Hin)].
    exfalso. apply Hfresh. rewrite E. apply in_map, Hin.
Qed.

Lemma getCachedUserSession_None now sessionId w :
  redis w !! ("session:" +:+ sessionId) = None →
  fst (RedisService.getCachedUserSession true now sessionId w) = Done None.
Proof.
  intros Hk. unfold RedisService.getCachedUserSession, RedisService.getJSON,
    RedisService.get, RedisService.client_get.
  io_unfold. rewrite Hk. reflexivity.
Qed.

(** X4.  A session id is [sess_], the decimal clock, an underscore and at most
    nine radix-36 digits: it is never empty and consists of letters, digits
    and underscores only, for a clock that is not negative and a radix-36
    rendering of the random number. *)
Theorem session_id_format now random36 :
  0 <= now → random_rendering random36 = true →
  let sid := generateSessionId now random36 in
  ∃ tail,
    sid = "sess_" +:+ pretty now +:+ "_" +:+ tail ∧
    (String.length tail ≤ 9)%nat ∧
    Str.all Str.is_base36 tail = true ∧
    Str.all Str.is_word sid = true.
Proof.
  intros Hnow Hr sid. exists (Str.substr 2 9 random36).
  pose proof (substr_rendering 9 _ Hr) as Htail.
  destruct (pretty_decimal now Hnow) as (Hdigits & _ & _).
  split; [reflexivity|]. split; [apply substring_length_le|]. split; [exact Htail|].
  subst sid. unfold generateSessionId. rewrite !all_app.
  assert (∀ c, Str.is_digit c = true → Str.is_word c = true) as Hd
    by (intros c Hc; unfold Str.is_word, Str.is_alnum; rewrite Hc; reflexivity).
  assert (∀ c, Str.is_base36 c = true → Str.is_word c = true) as Hb
    by (intros c Hc; unfold Str.is_word, Str.is_alnum; unfold Str.is_base36 in Hc;
        rewrite Hc; reflexivity).
  rewrite (all_weaken _ _ _ Hd Hdigits), (all_weaken _ _ _ Hb Htail). reflexivity.
Qed.

Section SessionLife.

Context (verifyMessage : string -> string -> option string) (JWT_SECRET : string).





(** X6.  The session row reads back until its expiry.  On a consistent
    database, after a successful connect [getSession] of the returned session
    id gives the row with the user's id, address and the expiry of seven days
    after the clock read for it, joined with the user's address and username,
    at every instant before that expiry, and nothing from then on. *)
Theorem session_reads_back env body w ok now :
  consistent w →
  fst (connect verifyMessage JWT_SECRET env body w) = Json ok →
  let recorded := connect_expires_now env + 604800000 in
  fst (DatabaseService.getSession true now (ok_sessionId ok)
         (snd (connect verifyMessage JWT_SECRET env body w)))
  = Done (if now <? recorded
          then Some (DatabaseService.mkJoin
                       (mkSession (ok_sessionId ok) (view_id (ok_user ok))
                          (view_walletAddress (ok_user ok)) recorded)
                       (view_walletAddress (ok_user ok)) (view_username (ok_user ok)))
          else None).
Proof.
  intros Hcons Hok recorded.
  destruct (connect_json verifyMessage JWT_SECRET env body w ok Hok)
    as (user & w1 & Hc & -> & Hfree & ->).
  destruct (createUser_inv _ _ _ _ _ _ _ _ Hc) as (_ & _ & _ & Hsess & _).
  destruct (createUser_found _ _ _ _ _ _ _ _ Hc) as (_ & _ & Hin).
  destruct (createUser_consistent _ _ _ _ _ _ _ _ Hc Hcons) as (Hids & _).
  destruct (issued_tables env user w1) as (Hu & _ & Hs & _).
  cbn [ok_sessionId connect_ok ok_user view_id view_walletAddress view_username].
  unfold DatabaseService.getSession. io_unfold. cbn [fst]. f_equal.
  unfold DatabaseService.select_session. rewrite Hs, Hu, flat_map_app.
  rewrite <- Hsess in Hfree.
  pose proof (select_session_absent now _ w1 Hfree) as Hnone.
  unfold DatabaseService.select_session in Hnone. rewrite Hnone.
  cbn [flat_map app session_row session_id session_expires_at session_user_id
       ok_sessionId connect_ok ok_user view_id view_walletAddress view_username].
  rewrite String.eqb_refl, (filter_unique_id user _ Hids Hin). cbn [andb].
  change (connect_expires_now env + 7 * 24 * 60 * 60 * 1000) with recorded.
  destruct (now <? recorded); reflexivity.
Qed.

(** X7.  disconnect undoes the session of connect.  With both stores
    reachable, disconnecting the session id that connect returned answers
    success, puts the session table back to what it was before the connect,
    and leaves neither [getSession] nor [getCachedUserSession] an answer for
    the id at any instant. *)
Theorem session_revoked cenv denv body w ok :
  fst (connect verifyMessage JWT_SECRET cenv body w) = Json ok →
  disconnect_db_up denv = true → disconnect_redis_up denv = true →
  let after := disconnect denv (Some (ok_sessionId ok))
                 (snd (connect verifyMessage JWT_SECRET cenv body w)) in
  fst after = Json "Disconnected successfully" ∧
  api_sessions (snd after) = api_sessions w ∧
  ∀ now,
    fst (DatabaseService.getSession true now (ok_sessionId ok) (snd after)) = Done None ∧
    fst (RedisService.getCachedUserSession true now (ok_sessionId ok) (snd after))
    = Done None.
Proof.
  intros Hok Hdb Hredis after. subst after.
  destruct (connect_json verifyMessage JWT_SECRET cenv body w ok Hok)
    as (user & w1 & Hc & -> & Hfree & ->).
  destruct (createUser_inv _ _ _ _ _ _ _ _ Hc) as (_ & _ & _ & Hsess & _).
  cbn [ok_sessionId connect_ok].
  set (sid := generateSessionId (connect_sid_now cenv) (connect_sid_random cenv)) in *.
  rewrite (disconnect_world denv sid _ (generateSessionId_nonempty _ _) Hdb), Hredis.
  cbn [fst snd]. destruct (issued_tables cenv user w1) as (_ & _ & Hs & _).
  assert (filter (fun s => session_id s ≠ sid) (api_sessions (issued cenv user w1))
          = api_sessions w) as Hrows.
  { rewrite Hs, filter_app, Hsess, (delete_absent sid _ Hfree).
    rewrite filter_cons. cbn [session_row session_id]. fold sid.
    case_decide; [contradiction|]. rewrite filter_nil. apply app_nil_r. }
  split; [reflexivity|]. split; [simpl; exact Hrows|]. intros now. split.
  - unfold DatabaseService.getSession. io_unfold. cbn [fst].
    rewrite select_session_absent; [reflexivity|]. simpl. rewrite Hrows. exact Hfree.
  - apply getCachedUserSession_None. simpl. apply lookup_delete_eq.
Qed.

(** X8.  A delete that does not reach Redis leaves the session in the cache.
    When connect cached the session and the later disconnect finds the
    database but not Redis, disconnect still answers success and the row is
    gone, yet [getCachedUserSession] keeps answering with the session until
    Redis drops the key. *)
Theorem cache_outlives_failed_delete cenv denv body w ok now :
  fst (connect verifyMessage JWT_SECRET cenv body w) = Json ok →
  connect_redis_up cenv = true →
  disconnect_db_up denv = true → disconnect_redis_up denv = false →
  now < connect_redis_now cenv + 604800000 →
  let after := disconnect denv (Some (ok_sessionId ok))
                 (snd (connect verifyMessage JWT_SECRET cenv body w)) in
  fst after = Json "Disconnected successfully" ∧
  fst (DatabaseService.getSession true now (ok_sessionId ok) (snd after)) = Done None ∧
  fst (RedisService.getCachedUserSession true now (ok_sessionId ok) (snd after))
  = Done (Some (Object (mkPayload (view_id (ok_user ok)) (view_walletAddress (ok_user ok))
                          (view_username (ok_user ok))))).
Proof.
  intros Hok Hcache Hdb Hredis Hlive after. subst after.
  destruct (connect_json verifyMessage JWT_SECRET cenv body w ok Hok)
    as (user & w1 & Hc & -> & Hfree & ->).
  cbn [ok_sessionId connect_ok ok_user view_id view_walletAddress view_username].
  set (sid := generateSessionId (connect_sid_now cenv) (connect_sid_random cenv)) in *.
  rewrite (disconnect_world denv sid _ (generateSessionId_nonempty _ _) Hdb), Hredis.
  cbn [fst snd]. split; [reflexivity|]. split.
  - unfold DatabaseService.getSession. io_unfold. cbn [fst].
    rewrite select_session_absent; [reflexivity|]. simpl. apply has_session_deleted.
  - destruct (issued_tables cenv user w1) as (_ & _ & _ & Hr). rewrite Hcache in Hr.
    rewrite (getCachedUserSession_entry now sid _
               (mkPayload (user_id user) (user_wallet_address user) (user_username user))
               (connect_redis_now cenv + 7 * 24 * 60 * 60 * 1000)).
    + assert ((now <=? connect_redis_now cenv + 7 * 24 * 60 * 60 * 1000) = true) as -> by lia.
      reflexivity.
    + simpl. rewrite Hr. fold sid. apply lookup_insert_eq.
Qed.

End SessionLife.

(** ** Tokens after connect *)

Section TokenLife.

Context (verifyMessage : string -> string -> option string) (JWT_SECRET : string).

(** refresh on a token signed with the secret. *)
Lemma refresh_signed env issued_at claims expiresIn w :
  refresh JWT_SECRET env (jwt.sign issued_at claims JWT_SECRET expiresIn) w =
  (if issued_at / 1000 + expiresIn <=? refresh_verify_now env / 1000
   then Error 401 "Invalid refresh token" "INVALID_REFRESH_TOKEN"
   else if refresh_db_up env then
     match DatabaseService.find_user (jwt.claim_walletAddress claims) (users w) with
     | Some user => Json (accessTokenFor JWT_SECRET (refresh_jwt_now env) user)
     | None => Error 401 "User not found" "USER_NOT_FOUND"
     end
   else internal_error, w).
Proof.
  unfold refresh, refresh_try, jwt.sign, jwt.verify. io_unfold.
  rewrite String.eqb_refl. cbn [negb jwt.payload_exp jwt.payload_claims].
  destruct (_ <=? _); [reflexivity|].
  unfold DatabaseService.getUserByWallet. destruct (refresh_db_up env); [|reflexivity].
  io_unfold. destruct (DatabaseService.find_user _ _); reflexivity.
Qed.

(** profile on a token signed with the secret. *)
Lemma profile_signed env issued_at claims expiresIn w :
  profile JWT_SECRET env (Some (jwt.sign issued_at claims JWT_SECRET expiresIn)) w =
  (if issued_at / 1000 + expiresIn <=? profile_verify_now env / 1000
   then Error 401 "Invalid token" "INVALID_TOKEN"
   else if profile_db_up env then
     match DatabaseService.find_user (jwt.claim_walletAddress claims) (users w) with
     | Some user =>
         Json (mkProfileOk
                 (mkView (user_id user) (user_wallet_address user) (user_username user)
                    (user_email user) (user_preferences user))
                 (user_created_at user) (user_updated_at user))
     | None => Error 404 "User not found" "USER_NOT_FOUND"
     end
   else internal_error, w).
Proof.
  unfold profile, profile_try, jwt.sign, jwt.verify, invalid_token. io_unfold.
  cbn [no_token]. rewrite String.eqb_refl. cbn [negb jwt.payload_exp jwt.payload_claims].
  destruct (_ <=? _); [reflexivity|].
  unfold DatabaseService.getUserByWallet. destruct (profile_db_up env); [|reflexivity].
  io_unfold. destruct (DatabaseService.find_user _ _); reflexivity.
Qed.

(** X9.  The refresh token of a connect mints access tokens for seven days,
    with or without the session.  On the world connect leaves, and on the
    world after a disconnect of its session, refresh with the returned
    refresh token answers a new one-hour access token for the same user while
    the clock in seconds is below the token's issue time plus 604 800, and
    INVALID_REFRESH_TOKEN from then on; it writes nothing. *)
Theorem refresh_token_lifetime cenv denv renv body w ok :
  fst (connect verifyMessage JWT_SECRET cenv body w) = Json ok →
  refresh_db_up renv = true →
  let connected := snd (connect verifyMessage JWT_SECRET cenv body w) in
  let disconnected := snd (disconnect denv (Some (ok_sessionId ok)) connected) in
  let expired := connect_jwt_refresh_now cenv / 1000 + 604800 <=? refresh_verify_now renv / 1000 in
  ∃ user,
    user_id user = view_id (ok_user ok) ∧
    user_wallet_address user = body_walletAddress body ∧
    ∀ w', w' = connected ∨ w' = disconnected →
      refresh JWT_SECRET renv (ok_refreshToken ok) w' =
      (if expired then Error 401 "Invalid refresh token" "INVALID_REFRESH_TOKEN"
       else Json (jwt.sign (refresh_jwt_now renv)
                    (jwt.mkClaims (user_id user) (user_wallet_address user)
                       (Some (user_username user)))
                    JWT_SECRET 3600),
       w').
Proof.
  intros Hok Hdb connected disconnected expired.
  destruct (connect_json verifyMessage JWT_SECRET cenv body w ok Hok)
    as (user & w1 & Hc & -> & _ & Hw).
  destruct (createUser_found _ _ _ _ _ _ _ _ Hc) as (Hfind & Hwallet & _).
  exists user. split; [reflexivity|]. split; [exact Hwallet|].
  assert (users connected = users w1) as Hu
    by (subst connected; rewrite Hw; apply issued_tables).
  assert (users disconnected = users w1) as Hu'.
  { subst disconnected. rewrite <- Hu. unfold disconnect, disconnect_try.
    cbn [ok_sessionId connect_ok].
    destruct (String.eqb _ ""); [reflexivity|].
    unfold DatabaseService.deleteSession, RedisService.invalidateUserSession,
      RedisService.del, RedisService.client_del. io_unfold.
    destruct (disconnect_db_up denv), (disconnect_redis_up denv); reflexivity. }
  intros w' Hw'. cbn [ok_refreshToken connect_ok]. unfold refreshTokenFor.
  rewrite refresh_signed, Hdb. cbn [jwt.claim_walletAddress]. fold expired.
  assert (users w' = users w1) as -> by (destruct Hw' as [-> | ->]; assumption).
  rewrite <- Hwallet in Hfind. rewrite Hfind. destruct expired; reflexivity.
Qed.

(** X10.  profile takes either token of a connect.  With the access token it
    answers the user connect returned for one hour, with the refresh token
    for seven days: the route checks the signature and the expiry and not
    the kind of the token.  A missing or empty token is NO_TOKEN, and the
    route never writes. *)
Theorem profile_accepts_both_tokens cenv penv body w ok :
  fst (connect verifyMessage JWT_SECRET cenv body w) = Json ok →
  profile_db_up penv = true →
  let connected := snd (connect verifyMessage JWT_SECRET cenv body w) in
  let seconds := profile_verify_now penv / 1000 in
  (seconds < connect_jwt_access_now cenv / 1000 + 3600 →
     ∃ reply, profile JWT_SECRET penv (Some (ok_accessToken ok)) connected
              = (Json reply, connected) ∧ profile_user reply = ok_user ok) ∧
  (seconds < connect_jwt_refresh_now cenv / 1000 + 604800 →
     ∃ reply, profile JWT_SECRET penv (Some (ok_refreshToken ok)) connected
              = (Json reply, connected) ∧ profile_user reply = ok_user ok) ∧
  (connect_jwt_access_now cenv / 1000 + 3600 <= seconds →
     profile JWT_SECRET penv (Some (ok_accessToken ok)) connected
     = (Error 401 "Invalid token" "INVALID_TOKEN", connected)) ∧
  profile JWT_SECRET penv None connected
  = (Error 401 "No token provided" "NO_TOKEN", connected) ∧
  profile JWT_SECRET penv (Some (jwt.Garbled "")) connected
  = (Error 401 "No token provided" "NO_TOKEN", connected).
Proof.
  intros Hok Hdb connected seconds.
  destruct (connect_json verifyMessage JWT_SECRET cenv body w ok Hok)
    as (user & w1 & Hc & -> & _ & Hw).
  destruct (createUser_found _ _ _ _ _ _ _ _ Hc) as (Hfind & Hwallet & _).
  assert (users connected = users w1) as Hu
    by (subst connected; rewrite Hw; apply issued_tables).
  cbn [ok_accessToken ok_refreshToken ok_user connect_ok].
  unfold accessTokenFor, refreshTokenFor. rewrite !profile_signed, Hdb, Hu.
  cbn [jwt.claim_walletAddress]. rewrite <- Hwallet in Hfind. rewrite Hfind.
  fold seconds.
  split; [|split; [|split; [|split]]].
  - intros Hlive. assert ((connect_jwt_access_now cenv / 1000 + 3600 <=? seconds) = false)
      as -> by lia. eexists. split; reflexivity.
  - intros Hlive. assert ((connect_jwt_refresh_now cenv / 1000 + 604800 <=? seconds) = false)
      as -> by lia. eexists. split; reflexivity.
  - intros Hdead. assert ((connect_jwt_access_now cenv / 1000 + 3600 <=? seconds) = true)
      as -> by lia. reflexivity.
  - reflexivity.
  - reflexivity.
Qed.

End TokenLife.

(** ** Identities across connects *)

Lemma NoDup_map_eq {A B} (f : A → B) (l : list A) x y :
  NoDup (map f l) → In x l → In y l → f x = f y → x = y.
Proof.
  induction l as [|a l IH]; simpl; [intros _ []|].
  intros [Hfresh Hnd]%NoDup_cons Hx Hy Hf. rewrite list_elem_of_In in Hfresh.
  destruct Hx as [-> | Hx], Hy as [-> | Hy]; [reflexivity | | | exact (IH Hnd Hx Hy Hf)].
  - exfalso. apply Hfresh. rewrite Hf. apply in_map, Hy.
  - exfalso. apply Hfresh. rewrite <- Hf. apply in_map, Hx.
Qed.


Section Identities.

Context (verifyMessage : string -> string -> option string) (JWT_SECRET : string).

(** X11.  Connecting again with the same address string keeps the identity
    and opens another session.  The second reply has the user id of the first
    and a different session id; the table of users does not grow; a username
    or email left out of the second request is the one stored by the first,
    and one that is given replaces it. *)
Theorem reconnect_same_identity env1 env2 body1 body2 w ok1 ok2 :
  fst (connect verifyMessage JWT_SECRET env1 body1 w) = Json ok1 →
  let w' := snd (connect verifyMessage JWT_SECRET env1 body1 w) in
  fst (connect verifyMessage JWT_SECRET env2 body2 w') = Json ok2 →
  body_walletAddress body2 = body_walletAddress body1 →
  view_id (ok_user ok2) = view_id (ok_user ok1) ∧
  ok_sessionId ok2 ≠ ok_sessionId ok1 ∧
  length (users (snd (connect verifyMessage JWT_SECRET env2 body2 w'))) = length (users w') ∧
  (body_username body2 = None → view_username (ok_user ok2) = view_username (ok_user ok1)) ∧
  (∀ u, body_username body2 = Some u → view_username (ok_user ok2) = Some u) ∧
  (body_email body2 = None → view_email (ok_user ok2) = view_email (ok_user ok1)) ∧
  (∀ e, body_email body2 = Some e → view_email (ok_user ok2) = Some e).
Proof.
  intros Hok1 w' Hok2 Hsame.
  destruct (connect_json verifyMessage JWT_SECRET env1 body1 w ok1 Hok1)
    as (user1 & w1 & Hc1 & -> & _ & Hw1).
  destruct (connect_json verifyMessage JWT_SECRET env2 body2 w' ok2 Hok2)
    as (user2 & w2 & Hc2 & -> & Hfree2 & Hw2).
  destruct (createUser_found _ _ _ _ _ _ _ _ Hc1) as (Hfind1 & _ & _).
  destruct (issued_tables env1 user1 w1) as (Hu & _ & Hs & _).
  fold w' in Hw1. rewrite Hw1 in Hc2, Hfree2.
  destruct (createUser_inv _ _ _ _ _ _ _ _ Hc2) as (_ & Hup2 & _).
  pose proof (upsert_user_spec (connect_db_user_now env2)
                (users_id_seq (issued env1 user1 w1)) (body_walletAddress body2)
                (body_username body2) (body_email body2)
                (users (issued env1 user1 w1))) as Hspec.
  rewrite Hup2, Hu, Hsame, Hfind1 in Hspec. destruct Hspec as ((-> & Hlen) & _ & _).
  cbn [ok_user ok_sessionId connect_ok view_id view_username view_email].
  split; [reflexivity|]. split; [|split].
  - intros Heq. rewrite Hs, has_session_app, Heq in Hfree2.
    cbn [session_row session_id] in Hfree2.
    rewrite String.eqb_refl, orb_true_r in Hfree2. discriminate.
  - rewrite Hw2. rewrite (proj1 (issued_tables env2 _ w2)), Hw1, Hu. exact Hlen.
  - repeat split.
    + intros ->. reflexivity.
    + intros u ->. reflexivity.
    + intros ->. reflexivity.
    + intros e ->. reflexivity.
Qed.

(** X12.  The identity is keyed by the address string as submitted.  On a
    consistent database two successful connects whose address strings differ
    get different user ids, also when the strings differ only in letter case
    and so pass for the same address in the signature check. *)
Theorem distinct_strings_distinct_identities env1 env2 body1 body2 w ok1 ok2 :
  consistent w →
  fst (connect verifyMessage JWT_SECRET env1 body1 w) = Json ok1 →
  fst (connect verifyMessage JWT_SECRET env2 body2
         (snd (connect verifyMessage JWT_SECRET env1 body1 w))) = Json ok2 →
  body_walletAddress body1 ≠ body_walletAddress body2 →
  view_id (ok_user ok1) ≠ view_id (ok_user ok2) ∧
  view_walletAddress (ok_user ok1) = body_walletAddress body1 ∧
  view_walletAddress (ok_user ok2) = body_walletAddress body2.
Proof.
  intros Hcons Hok1 Hok2 Hdiff.
  destruct (connect_json verifyMessage JWT_SECRET env1 body1 w ok1 Hok1)
    as (user1 & w1 & Hc1 & -> & _ & Hw1).
  rewrite Hw1 in Hok2.
  destruct (connect_json verifyMessage JWT_SECRET env2 body2 _ ok2 Hok2)
    as (user2 & w2 & Hc2 & -> & _ & _).
  destruct (createUser_found _ _ _ _ _ _ _ _ Hc1) as (_ & Hwal1 & Hin1).
  destruct (createUser_found _ _ _ _ _ _ _ _ Hc2) as (_ & Hwal2 & _).
  destruct (createUser_consistent _ _ _ _ _ _ _ _ Hc1 Hcons) as (Hids & _ & Hseq & _).
  destruct (issued_tables env1 user1 w1) as (Hu & Hq & _).
  destruct (createUser_inv _ _ _ _ _ _ _ _ Hc2) as (_ & Hup2 & _).
  pose proof (upsert_user_spec (connect_db_user_now env2)
                (users_id_seq (issued env1 user1 w1)) (body_walletAddress body2)
                (body_username body2) (body_email body2)
                (users (issued env1 user1 w1))) as Hspec.
  rewrite Hup2, Hu, Hq in Hspec. destruct Hspec as (Hcase & _ & _).
  cbn [ok_user connect_ok view_id view_walletAddress].
  split; [|split; assumption].
  rewrite List.Forall_forall in Hseq. specialize (Hseq user1 Hin1).
  destruct (DatabaseService.find_user (body_walletAddress body2) (users w1))
    as [old|] eqn:Hold; destruct Hcase as [-> _]; cbn [user_id]; [|lia].
  apply find_user_Some in Hold as [Hin Hwal]. intros Heq.
  assert (user1 = old) as -> by exact (NoDup_map_eq user_id _ _ _ Hids Hin1 Hin Heq).
  congruence.
Qed.


End Identities.

(** ** Expired sessions and preferences *)

Lemma select_session_cleanup now t sessionId us (rows : list SessionRow) :
  now <= t →
  flat_map
    (fun s =>
       if String.eqb (session_id s) sessionId && (t <? session_expires_at s) then
         map (fun u => DatabaseService.mkJoin s (user_wallet_address u) (user_username u))
           (filter (fun u => user_id u = session_user_id s) us)
       else [])
    (filter (fun s => ¬ session_expires_at s < now) rows)
  = flat_map
      (fun s =>
         if String.eqb (session_id s) sessionId && (t <? session_expires_at s) then
           map (fun u => DatabaseService.mkJoin s (user_wallet_address u) (user_username u))
             (filter (fun u => user_id u = session_user_id s) us)
         else [])
      rows.
Proof.
  intros Hle. induction rows as [|s rows IH]; [reflexivity|].
  rewrite filter_cons. case_decide as Hkeep; simpl; rewrite IH; [reflexivity|].
  assert ((t <? session_expires_at s) = false) as -> by lia.
  rewrite andb_false_r. reflexivity.
Qed.

(** X14.  [cleanupExpiredSessions] removes only what [getSession] no longer
    returns.  After a cleanup at [now], [getSession] answers at every instant
    from [now] on exactly as it would have without the cleanup; the rows left
    are exactly those with [expires_at >= now]; users and cache are
    untouched. *)
Theorem cleanup_keeps_live_sessions now w :
  let w' := snd (DatabaseService.cleanupExpiredSessions true now w) in
  (∀ t sessionId, now <= t →
     fst (DatabaseService.getSession true t sessionId w')
     = fst (DatabaseService.getSession true t sessionId w)) ∧
  (∀ s, In s (api_sessions w') ↔ In s (api_sessions w) ∧ now <= session_expires_at s) ∧
  users w' = users w ∧ redis w' = redis w.
Proof.
  intros w'. subst w'. unfold DatabaseService.cleanupExpiredSessions. io_unfold.
  cbn [snd]. split; [|split; [|split; reflexivity]].
  - intros t sessionId Hle. unfold DatabaseService.getSession. io_unfold. cbn [fst].
    unfold DatabaseService.select_session. simpl.
    rewrite (select_session_cleanup now t sessionId (users w) (api_sessions w) Hle).
    reflexivity.
  - intros s. simpl. rewrite <- !list_elem_of_In, list_elem_of_filter. split.
    + intros [Hk Hin]. split; [exact Hin | lia].
    + intros [Hin Hk]. split; [lia | exact Hin].
Qed.

Lemma update_preferences_spec now walletAddress document rows :
  let rows' :=
    map (fun r => if decide (user_wallet_address r = walletAddress)
                  then DatabaseService.with_preferences now document r else r) rows in
  map user_id rows' = map user_id rows ∧
  map user_wallet_address rows' = map user_wallet_address rows ∧
  DatabaseService.find_user walletAddress rows'
  = DatabaseService.with_preferences now document
      <$> DatabaseService.find_user walletAddress rows ∧
  ∀ other, other ≠ walletAddress →
    DatabaseService.find_user other rows' = DatabaseService.find_user other rows.
Proof.
  unfold DatabaseService.find_user. induction rows as [|r rows IH]; [repeat split|].
  destruct IH as (Hid & Hw & Hfind & Hother). cbn [map].
  destruct (decide (user_wallet_address r = walletAddress)) as [E|Hne].
  - split; [cbn [DatabaseService.with_preferences user_id]; f_equal; exact Hid|].
    split; [cbn [DatabaseService.with_preferences user_wallet_address]; f_equal; exact Hw|].
    split.
    + rewrite !filter_cons. cbn [DatabaseService.with_preferences user_wallet_address].
      destruct (decide (user_wallet_address r = walletAddress)); [reflexivity | contradiction].
    + intros other Ho. rewrite !filter_cons.
      cbn [DatabaseService.with_preferences user_wallet_address].
      destruct (decide (user_wallet_address r = other)); [congruence|].
      apply Hother, Ho.
  - split; [f_equal; exact Hid|]. split; [f_equal; exact Hw|]. split.
    + rewrite !filter_cons.
      destruct (decide (user_wallet_address r = walletAddress)); [contradiction | exact Hfind].
    + intros other Ho. rewrite !filter_cons.
      destruct (decide (user_wallet_address r = other)); [reflexivity|].
      apply Hother, Ho.
Qed.

Lemma update_preferences_absent now walletAddress document rows :
  ¬ In walletAddress (map user_wallet_address rows) →
  map (fun r => if decide (user_wallet_address r = walletAddress)
                then DatabaseService.with_preferences now document r else r) rows
  = rows.
Proof.
  induction rows as [|r rows IH]; [reflexivity|]. simpl. intros Hno.
  destruct (decide (user_wallet_address r = walletAddress)) as [E|_]; [exfalso; auto|].
  f_equal. apply IH. intros Hin. apply Hno. right. exact Hin.
Qed.

Section Preferences.

Context (JWT_SECRET : string) (jsonb : string -> option string).

(** preferences on a token signed with the secret. *)
Lemma preferences_signed env issued_at claims expiresIn document w :
  preferences JWT_SECRET jsonb env (Some (jwt.sign issued_at claims JWT_SECRET expiresIn))
    document w =
  if issued_at / 1000 + expiresIn <=? preferences_verify_now env / 1000
  then (Error 401 "Invalid token" "INVALID_TOKEN", w)
  else if preferences_db_up env then
    match DatabaseService.updateUserPreferences jsonb true (preferences_db_now env)
            (jwt.claim_walletAddress claims) document w with
    | (Done (Some user), w') => (Json (user_preferences user), w')
    | (Done None, w') => (Error 404 "User not found" "USER_NOT_FOUND", w')
    | (Raise _, w') => (internal_error, w')
    end
  else (internal_error, w).
Proof.
  unfold preferences, preferences_try, jwt.sign, jwt.verify, invalid_token. io_unfold.
  cbn [no_token]. rewrite String.eqb_refl. cbn [negb jwt.payload_exp jwt.payload_claims].
  destruct (_ <=? _); [reflexivity|].
  destruct (preferences_db_up env); [|reflexivity].
  unfold DatabaseService.updateUserPreferences.
  destruct (match document with Some text => jsonb text | None => Some "null" end);
    [|reflexivity].
  destruct (DatabaseService.find_user _ _); reflexivity.
Qed.

(** X15.  Preferences written are the preferences read, in the form the
    column keeps.  With a token of the secret that has not expired and both
    queries reaching the database: when the JSONB column accepts the submitted
    text, PUT /preferences for a wallet that has a row answers the document
    that the column gives back for it, and GET /profile afterwards shows that
    document, the new [updated_at], and the id, address, username, email and
    creation time the row had; for a wallet without a row the answer is 404
    USER_NOT_FOUND and the table is as it was; every other wallet resolves as
    before.  When the column refuses the text, the answer is 500
    INTERNAL_ERROR and nothing is written. *)
Theorem preferences_then_profile env penv issued_at claims expiresIn text w :
  preferences_verify_now env / 1000 < issued_at / 1000 + expiresIn →
  profile_verify_now penv / 1000 < issued_at / 1000 + expiresIn →
  preferences_db_up env = true → profile_db_up penv = true →
  let token := Some (jwt.sign issued_at claims JWT_SECRET expiresIn) in
  let wallet := jwt.claim_walletAddress claims in
  let after := preferences JWT_SECRET jsonb env token (Some text) w in
  match jsonb text with
  | Some document =>
      match DatabaseService.find_user wallet (users w) with
      | Some old =>
          fst after = Json document ∧
          fst (profile JWT_SECRET penv token (snd after))
          = Json (mkProfileOk
                    (mkView (user_id old) (user_wallet_address old) (user_username old)
                       (user_email old) document)
                    (user_created_at old) (preferences_db_now env))
      | None =>
          fst after = Error 404 "User not found" "USER_NOT_FOUND" ∧
          users (snd after) = users w
      end ∧
      ∀ other, other ≠ wallet →
        DatabaseService.find_user other (users (snd after))
        = DatabaseService.find_user other (users w)
  | None => after = (Error 500 "Internal server error" "INTERNAL_ERROR", w)
  end.
Proof.
  intros Hlive1 Hlive2 Hdb1 Hdb2 token wallet after. subst token after.
  rewrite preferences_signed, Hdb1.
  assert ((issued_at / 1000 + expiresIn <=? preferences_verify_now env / 1000) = false)
    as -> by lia.
  fold wallet. unfold DatabaseService.updateUserPreferences.
  destruct (jsonb text) as [document|]; [|reflexivity].
  set (rows' := map (fun r => if decide (user_wallet_address r = wallet)
                              then DatabaseService.with_preferences (preferences_db_now env)
                                     document r
                              else r) (users w)).
  destruct (update_preferences_spec (preferences_db_now env) wallet document (users w))
    as (_ & _ & Hfind & Hother).
  fold rows' in Hfind, Hother. rewrite Hfind.
  destruct (DatabaseService.find_user wallet (users w)) as [old|] eqn:Hold;
    cbn [fmap option_fmap option_map fst snd]; (split; [|exact Hother]).
  - split; [reflexivity|]. rewrite profile_signed, Hdb2.
    assert ((issued_at / 1000 + expiresIn <=? profile_verify_now penv / 1000) = false)
      as -> by lia.
    fold wallet. cbn [users set_users]. rewrite Hfind. reflexivity.
  - split; [reflexivity|]. apply find_user_None in Hold. cbn [users set_users].
    subst rows'. apply update_preferences_absent, Hold.
Qed.

End Preferences.

(** ** The routes keep the table constraints *)

Lemma consistent_same_tables w w' :
  users w' = users w → users_id_seq w' = users_id_seq w →
  api_sessions w' = api_sessions w → consistent w → consistent w'.
Proof. unfold consistent. intros -> -> ->. tauto. Qed.

Lemma NoDup_map_filter {A B} (f : A → B) (P : A → Prop) `{∀ x, Decision (P x)} l :
  NoDup (map f l) → NoDup (map f (filter P l)).
Proof.
  induction l as [|a l IH]; simpl; [intros _; constructor|].
  intros [Hfresh Hnd]%NoDup_cons. rewrite filter_cons.
  destruct (decide (P a)); [|exact (IH Hnd)]. simpl. apply NoDup_cons.
  split; [|exact (IH Hnd)]. intros Hin. apply Hfresh.
  apply list_elem_of_In, in_map_iff in Hin as (x & <- & Hx).
  apply list_elem_of_In, in_map. apply list_elem_of_In.
  apply list_elem_of_In, list_elem_of_filter in Hx. tauto.
Qed.

Lemma consistent_filter_sessions (P : SessionRow → Prop) `{∀ s, Decision (P s)} w :
  consistent w → consistent (set_api_sessions (filter P) w).
Proof.
  intros (Hid & Hwa & Hseq & Hsid & Hfk). unfold consistent. simpl.
  repeat split; try assumption.
  - apply NoDup_map_filter, Hsid.
  - apply List.Forall_forall. intros s Hs.
    apply list_elem_of_In, list_elem_of_filter in Hs as [_ Hs].
    rewrite List.Forall_forall in Hfk. apply Hfk, list_elem_of_In, Hs.
Qed.

Lemma consistent_issued env user w1 :
  consistent w1 →
  DatabaseService.has_session
    (generateSessionId (connect_sid_now env) (connect_sid_random env))
    (api_sessions w1) = false →
  DatabaseService.has_user_id (user_id user) (users w1) = true →
  consistent (issued env user w1).
Proof.
  intros (Hid & Hwa & Hseq & Hsid & Hfk) Hfree Huser.
  destruct (issued_tables env user w1) as (Hu & Hq & Hs & _).
  unfold consistent. rewrite Hu, Hq, Hs. repeat split; try assumption.
  - rewrite map_app. apply NoDup_app. split; [exact Hsid|].
    split; [|apply NoDup_singleton].
    intros i Hi [<-|[]]%list_elem_of_In. apply list_elem_of_In in Hi.
    apply has_session_In in Hfree. contradiction.
  - apply Forall_app. split; [exact Hfk|]. constructor; [exact Huser | constructor].
Qed.

Lemma preferences_world JWT_SECRET jsonb env authorization document w :
  snd (preferences JWT_SECRET jsonb env authorization document w) = w ∨
  ∃ now walletAddress text,
    snd (preferences JWT_SECRET jsonb env authorization document w) =
    set_users (fun _ =>
      map (fun r => if decide (user_wallet_address r = walletAddress)
                    then DatabaseService.with_preferences now text r else r)
        (users w)) w.
Proof.
  unfold preferences, preferences_try. io_unfold.
  destruct authorization as [token|]; [|left; reflexivity].
  destruct (no_token (Some token)); [left; reflexivity|].
  destruct (jwt.verify _ token JWT_SECRET) as [decoded|e]; [|left; reflexivity].
  unfold DatabaseService.updateUserPreferences.
  destruct (preferences_db_up env); [|left; reflexivity].
  destruct (match document with Some text => jsonb text | None => Some "null" end);
    [|left; reflexivity].
  right. eexists _, _, _.
  destruct (DatabaseService.find_user _ _); reflexivity.
Qed.

(** X16.  Every route leaves the tables consistent: user ids stay unique and
    below the id sequence, wallet addresses and session ids stay unique, and
    every session row keeps a user, whatever the request and whichever store
    call fails on the way; [cleanupExpiredSessions] does as well.  refresh and
    profile write nothing at all. *)
Theorem routes_keep_constraints w :
  consistent w →
  (∀ verifyMessage JWT_SECRET env body,
     consistent (snd (connect verifyMessage JWT_SECRET env body w))) ∧
  (∀ env header, consistent (snd (disconnect env header w))) ∧
  (∀ JWT_SECRET jsonb env authorization document,
     consistent (snd (preferences JWT_SECRET jsonb env authorization document w))) ∧
  (∀ env walletAddress, consistent (snd (issueChallenge env walletAddress w))) ∧
  (∀ up now, consistent (snd (DatabaseService.cleanupExpiredSessions up now w))) ∧
  (∀ JWT_SECRET env token, snd (refresh JWT_SECRET env token w) = w) ∧
  (∀ JWT_SECRET env authorization, snd (profile JWT_SECRET env authorization w) = w).
Proof.
  intros Hcons. split; [|split; [|split; [|split; [|split; [|split]]]]].
  - intros verifyMessage JWT_SECRET env body.
    destruct (connect_cases verifyMessage JWT_SECRET env body w)
      as [[-> _] | (user & w1 & Hc & _ & _ & Hsess & [(_ & -> & _) | (Ec & _ & ->)])].
    + exact Hcons.
    + exact (createUser_consistent _ _ _ _ _ _ _ _ Hc Hcons).
    + pose proof (createUser_consistent _ _ _ _ _ _ _ _ Hc Hcons) as Hcons1.
      destruct (createSession_cases (connect_db_session_up env)
                  (generateSessionId (connect_sid_now env) (connect_sid_random env))
                  (user_id user) (user_wallet_address user)
                  (connect_expires_now env + 7 * 24 * 60 * 60 * 1000) w1)
        as [(_ & _ & Hfree & Huser) | (e & Ee & _)];
        [|simpl in Ec; rewrite Ee in Ec; discriminate].
      exact (consistent_issued env user w1 Hcons1 Hfree Huser).
  - intros env header. unfold disconnect, disconnect_try. io_unfold.
    destruct header as [sessionId|]; [|exact Hcons].
    destruct (String.eqb sessionId ""); [exact Hcons|].
    unfold DatabaseService.deleteSession, RedisService.invalidateUserSession,
      RedisService.del, RedisService.client_del. io_unfold.
    destruct (disconnect_db_up env); [|exact Hcons].
    pose proof (consistent_filter_sessions (fun s => session_id s ≠ sessionId) w Hcons).
    destruct (disconnect_redis_up env); simpl;
      (eapply consistent_same_tables; [..|eassumption]); reflexivity.
  - intros JWT_SECRET jsonb env authorization document.
    destruct (preferences_world JWT_SECRET jsonb env authorization document w)
      as [-> | (now & walletAddress & text & ->)]; [exact Hcons|].
    destruct Hcons as (Hid & Hwa & Hseq & Hsid & Hfk).
    destruct (update_preferences_spec now walletAddress text (users w)) as (Hi & Hw & _).
    unfold consistent. cbn [users set_users users_id_seq api_sessions].
    rewrite Hi, Hw. repeat split; try assumption.
    + apply List.Forall_forall. intros u Hu.
      assert (In (user_id u) (map user_id (users w))) as Hin
        by (rewrite <- Hi; apply in_map, Hu).
      apply in_map_iff in Hin as (u0 & <- & Hu0).
      rewrite List.Forall_forall in Hseq. exact (Hseq u0 Hu0).
    + eapply List.Forall_impl; [|exact Hfk]. intros s Hs0. simpl in Hs0.
      rewrite (has_user_id_map _ _ _ Hi). exact Hs0.
  - intros env walletAddress. unfold issueChallenge, nonce_try. io_unfold.
    destruct (negb (wallet_pattern walletAddress)); [exact Hcons|].
    unfold RedisService.set, RedisService.client_setEx. io_unfold. cbn [negb Z.eqb].
    destruct (nonce_redis_up env); simpl; [|exact Hcons].
    eapply consistent_same_tables; [..|exact Hcons]; reflexivity.
  - intros up now. unfold DatabaseService.cleanupExpiredSessions. io_unfold.
    destruct up; [|exact Hcons].
    exact (consistent_filter_sessions (fun s => ¬ session_expires_at s < now) w Hcons).
  - intros JWT_SECRET env token. unfold refresh, refresh_try. io_unfold.
    destruct (jwt.verify _ token JWT_SECRET) as [decoded|e]; [|reflexivity].
    unfold DatabaseService.getUserByWallet. destruct (refresh_db_up env); [|reflexivity].
    io_unfold. destruct (DatabaseService.find_user _ _); reflexivity.
  - intros JWT_SECRET env authorization. unfold profile, profile_try. io_unfold.
    destruct authorization as [token|]; [|reflexivity].
    destruct (no_token (Some token)); [reflexivity|].
    destruct (jwt.verify _ token JWT_SECRET) as [decoded|e]; [|reflexivity].
    unfold DatabaseService.getUserByWallet. destruct (profile_db_up env); [|reflexivity].
    io_unfold. destruct (DatabaseService.find_user _ _); reflexivity.
Qed.

(** ** RedisService: values, expiry and counters *)

(** X17.  What [get] returns after [set].  A positive [ttl] keeps the value
    readable up to that many seconds after the write; no [ttl], and [ttl = 0],
    which [if (ttl)] takes for no [ttl], keep it without an expiry; other
    keys read as before.  A negative [ttl] or an unreachable Redis makes [set]
    return false and changes nothing, and [get] on an unreachable Redis
    returns null instead of throwing. *)
Theorem set_then_get now key value ttl w t :
  let written := RedisService.set true now key value ttl w in
  (∀ other, other ≠ key →
     fst (RedisService.get true t other (snd written)) = fst (RedisService.get true t other w)) ∧
  match ttl with
  | Some seconds =>
      (0 < seconds →
         fst written = Done true ∧
         fst (RedisService.get true t key (snd written))
         = Done (if t <=? now + seconds * 1000 then Some value else None)) ∧
      (seconds = 0 →
         fst written = Done true ∧
         fst (RedisService.get true t key (snd written)) = Done (Some value)) ∧
      (seconds < 0 → written = (Done false, w))
  | None =>
      fst written = Done true ∧
      fst (RedisService.get true t key (snd written)) = Done (Some value)
  end ∧
  RedisService.set false now key value ttl w = (Done false, w) ∧
  RedisService.get false t key w = (Done None, w).
Proof.
  intros written. subst written.
  unfold RedisService.set, RedisService.get, RedisService.client_get,
    RedisService.client_setEx, RedisService.client_set.
  io_unfold. split; [|split; [|split]].
  - intros other Hne. destruct ttl as [seconds|]; simpl.
    + destruct (seconds =? 0); simpl; [rewrite lookup_insert_ne by congruence; reflexivity|].
      destruct (0 <? seconds); simpl; [|reflexivity].
      rewrite lookup_insert_ne by congruence. reflexivity.
    + rewrite lookup_insert_ne by congruence. reflexivity.
  - destruct ttl as [seconds|]; simpl.
    + split; [|split].
      * intros Hpos. assert ((seconds =? 0) = false) as -> by lia.
        assert ((0 <? seconds) = true) as -> by lia. simpl.
        rewrite lookup_insert_eq. unfold RedisService.live. simpl.
        destruct (t <=? now + seconds * 1000); split; reflexivity.
      * intros ->. simpl. rewrite lookup_insert_eq. split; reflexivity.
      * intros Hneg. assert ((seconds =? 0) = false) as -> by lia.
        assert ((0 <? seconds) = false) as -> by lia. reflexivity.
    + rewrite lookup_insert_eq. split; reflexivity.
  - destruct ttl as [seconds|]; simpl; [destruct (seconds =? 0)|]; reflexivity.
  - reflexivity.
Qed.

Lemma pretty_head n :
  0 <= n → ∃ c rest, pretty n = String c rest ∧ Str.is_digit c = true.
Proof.
  intros Hn. destruct (pretty_decimal n Hn) as (Hall & Hne & _).
  destruct (pretty n) as [|c rest]; [contradiction|].
  simpl in Hall. apply andb_true_iff in Hall as [Hc _]. eauto.
Qed.

Lemma redis_integer_pretty n :
  0 <= n < 2 ^ 63 → RedisService.redis_integer (pretty n) = Some n.
Proof.
  intros [Hn Hmax]. unfold RedisService.redis_integer.
  destruct (pretty_decimal n Hn) as (_ & _ & Hparse).
  destruct (pretty_head n Hn) as (c & rest & E & Hc).
  assert (Ascii.eqb c "-" = false) as Hminus.
  { destruct (Ascii.eqb_spec c "-") as [->|]; [discriminate Hc | reflexivity]. }
  rewrite E, Hminus, <- E, Hparse, String.eqb_refl.
  assert ((- 2 ^ 63 <=? n) = true) as -> by lia.
  assert ((n <? 2 ^ 63) = true) as -> by lia. reflexivity.
Qed.

Lemma parseInt10_digits c rest :
  Str.all Str.is_digit (String c rest) = true →
  Str.parseInt10 (String c rest) = Some (Str.parseInt (String c rest)).
Proof.
  intros Hall. pose proof Hall as Hc. simpl in Hc. apply andb_true_iff in Hc as [Hc _].
  unfold Str.parseInt10. cbn [Str.skip_spaces].
  assert (Str.is_space c = false) as ->
    by (destruct c as [[] [] [] [] [] [] [] []]; vm_compute in Hc |- *; congruence).
  assert (Ascii.eqb c "-" = false) as ->
    by (destruct (Ascii.eqb_spec c "-") as [->|]; [discriminate Hc | reflexivity]).
  assert (Ascii.eqb c "+" = false) as ->
    by (destruct (Ascii.eqb_spec c "+") as [->|]; [discriminate Hc | reflexivity]).
  rewrite (digits_all _ Hall). reflexivity.
Qed.

Lemma parseInt10_pretty n : 0 <= n → Str.parseInt10 (pretty n) = Some n.
Proof.
  intros Hn. destruct (pretty_decimal n Hn) as (Hall & _ & Hparse).
  destruct (pretty_head n Hn) as (c & rest & E & _).
  rewrite E in Hall, Hparse |- *. rewrite (parseInt10_digits c rest Hall), Hparse.
  reflexivity.
Qed.

(** A key that Redis does not answer for at [now]: absent, or past its
    deadline. *)
Definition vacant (now : Z) (key : string) (w : World) : Prop :=
  match redis w !! key with
  | Some e => RedisService.live now e = false
  | None => True
  end.

(** Successive calls of [incrementRateLimit] for one key. *)
Fixpoint increments (envs : list RedisService.RateEnv) (key : string) (window : option Z)
    (w : World) : list (Result Z) * World :=
  match envs with
  | [] => ([], w)
  | env :: rest =>
      let (r, w1) := RedisService.incrementRateLimit env key window w in
      let (rs, w2) := increments rest key window w1 in
      (r :: rs, w2)
  end.

(** The calls all reach Redis, before the instant [deadline]. *)
Definition within (deadline : option Z) (envs : list RedisService.RateEnv) : Prop :=
  Forall (fun env =>
            RedisService.rate_incr_up env = true ∧
            match deadline with
            | Some d => RedisService.rate_incr_now env < d
            | None => True
            end) envs.

Lemma increment_first env key window w :
  vacant (RedisService.rate_incr_now env) key w →
  RedisService.rate_incr_up env = true →
  RedisService.incrementRateLimit env key window w =
  if RedisService.rate_expire_up env then
    (Done 1,
     if default 3600 window <=? 0
     then set_redis (delete key) (set_redis (insert key (mkEntry (Text "1") None)) w)
     else set_redis (insert key (mkEntry (Text "1")
                                   (Some (RedisService.rate_expire_now env
                                          + default 3600 window * 1000))))
            (set_redis (insert key (mkEntry (Text "1") None)) w))
  else (Done 0, set_redis (insert key (mkEntry (Text "1") None)) w).
Proof.
  intros Hvac Hup. unfold RedisService.incrementRateLimit, RedisService.client_incr,
    RedisService.client_expire, vacant in *.
  io_unfold. rewrite Hup.
  assert (match redis w !! key with
          | Some e =>
              if RedisService.live (RedisService.rate_incr_now env) e
              then match entry_value e with
                   | Text s =>
                       match RedisService.redis_integer s with
                       | Some n =>
                           if n + 1 <? 2 ^ 63
                           then (Done (n + 1),
                                 set_redis (insert key (mkEntry (Text (pretty (n + 1)))
                                                          (entry_deadline e))) w)
                           else (Raise RedisError, w)
                       | None => (Raise RedisError, w)
                       end
                   | JsonText _ => (Raise RedisError, w)
                   end
              else (Done 1, set_redis (insert key (mkEntry (Text "1") None)) w)
          | None => (Done 1, set_redis (insert key (mkEntry (Text "1") None)) w)
          end = (Done 1, set_redis (insert key (mkEntry (Text "1") None)) w)) as ->.
  { destruct (redis w !! key) as [e|]; [rewrite Hvac|]; reflexivity. }
  cbn [Z.eqb Pos.eqb]. destruct (RedisService.rate_expire_up env); [|reflexivity].
  simpl. rewrite lookup_insert_eq. cbn [RedisService.live entry_deadline entry_value].
  destruct (default 3600 window <=? 0); reflexivity.
Qed.

Lemma increment_next env key window w k deadline :
  redis w !! key = Some (mkEntry (Text (pretty k)) deadline) →
  1 <= k → k + 1 < 2 ^ 63 →
  within deadline [env] →
  RedisService.incrementRateLimit env key window w =
  (Done (k + 1), set_redis (insert key (mkEntry (Text (pretty (k + 1))) deadline)) w).
Proof.
  intros Hk H1 Hmax Hin. apply Forall_inv in Hin as [Hup Hlive].
  unfold RedisService.incrementRateLimit, RedisService.client_incr. io_unfold.
  rewrite Hup, Hk. cbn [entry_value entry_deadline].
  assert (RedisService.live (RedisService.rate_incr_now env)
            (mkEntry (Text (pretty k)) deadline) = true) as ->.
  { unfold RedisService.live. simpl. destruct deadline; [lia | reflexivity]. }
  rewrite redis_integer_pretty by lia.
  assert ((k + 1 <? 2 ^ 63) = true) as -> by lia.
  assert ((k + 1 =? 1) = false) as -> by lia. reflexivity.
Qed.

Lemma increments_next envs key window : ∀ w k deadline,
  redis w !! key = Some (mkEntry (Text (pretty k)) deadline) →
  1 <= k → k + Z.of_nat (length envs) < 2 ^ 63 →
  within deadline envs →
  fst (increments envs key window w)
  = map (fun i => Done (k + Z.of_nat i)) (seq 1 (length envs)) ∧
  redis (snd (increments envs key window w)) !! key
  = Some (mkEntry (Text (pretty (k + Z.of_nat (length envs)))) deadline).
Proof.
  induction envs as [|env envs IH]; intros w k deadline Hk H1 Hmax Hin.
  - simpl. rewrite Z.add_0_r. split; [reflexivity | exact Hk].
  - cbn [length] in Hmax. apply Forall_cons in Hin as [Henv Hrest].
    cbn [increments].
    rewrite (increment_next env key window w k deadline Hk H1) by
      first [lia | constructor; [exact Henv | constructor]].
    destruct (IH (set_redis (insert key (mkEntry (Text (pretty (k + 1))) deadline)) w)
                (k + 1) deadline) as [Hres Hfin];
      [simpl; apply lookup_insert_eq | lia | lia | exact Hrest |].
    destruct (increments envs key window _) as [rs w2]. cbn [fst snd] in *.
    split.
    + cbn [length seq map]. change (Z.of_nat 1) with 1.
      rewrite Hres, <- (seq_shift (length envs) 1), map_map. f_equal.
      apply List.map_ext. intros i. f_equal. lia.
    + rewrite Hfin. cbn [length].
      replace (k + 1 + Z.of_nat (length envs)) with (k + Z.of_nat (S (length envs))) by lia.
      reflexivity.
Qed.

Lemma getRateLimit_counter t key w n deadline :
  0 <= n →
  redis w !! key = Some (mkEntry (Text (pretty n)) deadline) →
  fst (RedisService.getRateLimit true t key w)
  = Done (if RedisService.live t (mkEntry (Text (pretty n)) deadline) then Some n else Some 0).
Proof.
  intros Hn Hk. unfold RedisService.getRateLimit, RedisService.get, RedisService.client_get.
  io_unfold. rewrite Hk. cbn [fst].
  destruct (RedisService.live t _); [|reflexivity]. cbn [entry_value].
  destruct (pretty_decimal n Hn) as (_ & Hne & _).
  apply String.eqb_neq in Hne. rewrite Hne, (parseInt10_pretty n Hn). reflexivity.
Qed.

(** X18.  [incrementRateLimit] counts calls within a window that starts at the
    first call.  From a key that Redis does not hold, with every command
    reaching Redis and all later calls before the deadline (the Redis clock of
    the first EXPIRE plus the window, 3600 s when none is given), the calls
    return 1, 2, 3, ... in order; [getRateLimit] reads the number of calls
    up to the deadline and 0 after it, when the key is vacant again and the
    next window can start. *)
Theorem rate_limit_counts first later key window w :
  vacant (RedisService.rate_incr_now first) key w →
  RedisService.rate_incr_up first = true → RedisService.rate_expire_up first = true →
  0 < default 3600 window →
  let deadline := RedisService.rate_expire_now first + default 3600 window * 1000 in
  within (Some deadline) later →
  Z.of_nat (length later) + 1 < 2 ^ 53 →
  let run := increments (first :: later) key window w in
  fst run = map (fun i => Done (Z.of_nat i)) (seq 1 (S (length later))) ∧
  ∀ t,
    fst (RedisService.getRateLimit true t key (snd run))
    = Done (Some (if t <=? deadline then Z.of_nat (S (length later)) else 0)) ∧
    (vacant t key (snd run) ↔ deadline < t).
Proof.
  intros Hvac Hup1 Hup2 Hwin deadline Hlater Hmax run. subst run. cbn [increments].
  rewrite (increment_first first key window w Hvac Hup1), Hup2.
  assert ((default 3600 window <=? 0) = false) as -> by lia. fold deadline.
  match goal with |- context [increments later key window ?w1] => set (w1' := w1) end.
  destruct (increments_next later key window w1' 1 (Some deadline)) as [Hres Hfin];
    [subst w1'; simpl; apply lookup_insert_eq | lia | lia | exact Hlater |].
  destruct (increments later key window w1') as [rs w2]. cbn [fst snd] in *.
  split.
  - cbn [seq map]. rewrite Hres, <- (seq_shift (length later) 1), map_map.
    f_equal. apply List.map_ext. intros i. f_equal. lia.
  - intros t.
    replace (1 + Z.of_nat (length later)) with (Z.of_nat (S (length later))) in Hfin by lia.
    split.
    + rewrite (getRateLimit_counter t key w2 _ _ (Nat2Z.is_nonneg _) Hfin).
      unfold RedisService.live. cbn [entry_deadline].
      destruct (t <=? deadline); reflexivity.
    + unfold vacant. rewrite Hfin. unfold RedisService.live. cbn [entry_deadline].
      apply Z.leb_gt.
Qed.

(** X19.  When the EXPIRE of the first call does not reach Redis, the counter
    never resets.  The first call has already incremented the key and returns
    0 from its catch; the key is left without an expiry, the later calls
    return 2, 3, ... and never set one, so [getRateLimit] reads the running
    count at every later instant and the key is never vacant again. *)
Theorem rate_limit_never_resets first later key window w :
  vacant (RedisService.rate_incr_now first) key w →
  RedisService.rate_incr_up first = true → RedisService.rate_expire_up first = false →
  within None later →
  Z.of_nat (length later) + 1 < 2 ^ 53 →
  let run := increments (first :: later) key window w in
  fst run = Done 0 :: map (fun i => Done (1 + Z.of_nat i)) (seq 1 (length later)) ∧
  ∀ t,
    fst (RedisService.getRateLimit true t key (snd run))
    = Done (Some (1 + Z.of_nat (length later))) ∧
    ¬ vacant t key (snd run).
Proof.
  intros Hvac Hup1 Hup2 Hlater Hmax run. subst run. cbn [increments].
  rewrite (increment_first first key window w Hvac Hup1), Hup2.
  match goal with |- context [increments later key window ?w1] => set (w1' := w1) end.
  destruct (increments_next later key window w1' 1 None) as [Hres Hfin];
    [subst w1'; simpl; apply lookup_insert_eq | lia | lia | exact Hlater |].
  destruct (increments later key window w1') as [rs w2]. cbn [fst snd] in *.
  split; [rewrite Hres; reflexivity|]. intros t. split.
  - assert (0 <= 1 + Z.of_nat (length later)) as Hn by lia.
    rewrite (getRateLimit_counter t key w2 _ _ Hn Hfin). reflexivity.
  - unfold vacant. rewrite Hfin. discriminate.
Qed.

(** ** Renewal without a refresh token *)

(** refresh applied to its own output, once per environment. *)
Fixpoint renew (JWT_SECRET : string) (envs : list RefreshEnv) (token : jwt.Token)
    (w : World) : Reply jwt.Token * World :=
  match envs with
  | [] => (Json token, w)
  | env :: rest =>
      match refresh JWT_SECRET env token w with
      | (Json next, w') => renew JWT_SECRET rest next w'
      | failure => failure
      end
  end.

(** Each refresh reaches the database and verifies its token less than 3600 s
    after the token was signed, the first one at [signed]. *)
Fixpoint in_time (signed : Z) (envs : list RefreshEnv) : Prop :=
  match envs with
  | [] => True
  | env :: rest =>
      refresh_db_up env = true ∧
      refresh_verify_now env / 1000 < signed / 1000 + 3600 ∧
      in_time (refresh_jwt_now env) rest
  end.

(** X20.  An access token renews itself.  refresh accepts the access token it
    has just issued, so a holder of a one-hour token of a wallet that has a
    row who calls refresh again within each hour gets a fresh one-hour token
    every time, as many times as wanted and without a refresh token; the
    world is never written. *)
Theorem access_token_renews_itself JWT_SECRET envs last signed claims w user :
  DatabaseService.find_user (jwt.claim_walletAddress claims) (users w) = Some user →
  in_time signed (envs ++ [last]) →
  renew JWT_SECRET (envs ++ [last]) (jwt.sign signed claims JWT_SECRET 3600) w
  = (Json (accessTokenFor JWT_SECRET (refresh_jwt_now last) user), w).
Proof.
  revert signed claims. induction envs as [|env envs IH]; intros signed claims Hfind Htime.
  - destruct Htime as (Hdb & Hlive & _). cbn [app renew].
    rewrite refresh_signed, Hdb, Hfind.
    assert ((signed / 1000 + 3600 <=? refresh_verify_now last / 1000) = false) as -> by lia.
    reflexivity.
  - destruct Htime as (Hdb & Hlive & Hrest). cbn [app renew].
    rewrite refresh_signed, Hdb, Hfind.
    assert ((signed / 1000 + 3600 <=? refresh_verify_now env / 1000) = false) as -> by lia.
    apply IH; [|exact Hrest]. cbn [jwt.claim_walletAddress].
    destruct (find_user_Some _ _ _ Hfind) as [_ Hwallet]. rewrite Hwallet. exact Hfind.
Qed.

(** * The further properties on the worked example *)

Module Scenario.

(** The challenge that [Demo.fresh_message] is. *)
Definition challenge : NonceEnv := mkNonceEnv "0.4fzyo82mvyr" 1700000000000 true 1700000000002.

(** Alice's first connect on an empty server, and what it returns. *)
Definition first_connect : Reply ConnectOk * World :=
  connect Demo.verifyMessage Demo.JWT_SECRET (Demo.env_at Demo.now) Demo.fresh_request
    Demo.empty_world.

Definition alice_user : UserRow :=
  mkUser 1 Demo.alice None None "{}" (Demo.now + 1) (Demo.now + 1).

Definition first_ok : ConnectOk :=
  connect_ok Demo.JWT_SECRET (Demo.env_at Demo.now) alice_user.

(** The same wallet written in lower case. *)
Definition alice_lower : string := "0x14791697260e4c9a71f18484c9f997b308e59325".

Definition lower_request : ConnectBody :=
  mkConnectBody alice_lower Demo.fresh_signature Demo.fresh_message None None.

(** A second request by Alice that brings a username. *)
Definition named_request : ConnectBody :=
  mkConnectBody Demo.alice Demo.fresh_signature Demo.fresh_message (Some "alice") None.

Definition stores_up : DisconnectEnv := mkDisconnectEnv true true.
Definition redis_down : DisconnectEnv := mkDisconnectEnv true false.

(** Three calls of the rate limiter, one second apart. *)
Definition call (now : Z) : RedisService.RateEnv := RedisService.mkRateEnv true now true now.
Definition call_without_expire (now : Z) : RedisService.RateEnv :=
  RedisService.mkRateEnv true now false now.

End Scenario.

Lemma empty_world_consistent : consistent Demo.empty_world.
Proof. repeat split; constructor. Qed.

Lemma first_connect_ok : fst Scenario.first_connect = Json Scenario.first_ok.
Proof. reflexivity. Qed.

Lemma issued_timestamp_reads_back_witness :
  ∃ ok,
    fst (issueChallenge Scenario.challenge Demo.alice Demo.empty_world) = Json ok ∧
    nonce_timestamp ok = 1700000000000 ∧
    extractTimestampFromMessage (nonce_message ok) = 1700000000000.
Proof.
  apply (issued_timestamp_reads_back Scenario.challenge Demo.alice Demo.empty_world);
    [reflexivity | reflexivity | vm_compute; discriminate].
Defined.

Lemma nonce_route_answers_witness :
  issueChallenge Scenario.challenge "0x1234" Demo.empty_world
  = (Error 400 "Invalid wallet address format" "INVALID_WALLET_ADDRESS", Demo.empty_world) ∧
  snd (issueChallenge (mkNonceEnv "0.4fzyo82mvyr" 1700000000000 false 1700000000002)
         Demo.alice Demo.empty_world) = Demo.empty_world.
Proof.
  split.
  - exact (proj1 (nonce_route_answers Scenario.challenge "0x1234" Demo.empty_world) eq_refl).
  - exact (proj2 (proj2 (nonce_route_answers
                           (mkNonceEnv "0.4fzyo82mvyr" 1700000000000 false 1700000000002)
                           Demo.alice Demo.empty_world) eq_refl) eq_refl).
Defined.

Lemma nonce_lifetime_witness :
  let second := mkNonceEnv "0.9k2c0x7hq1b" 1700000060000 true 1700000060002 in
  let once := snd (issueChallenge Scenario.challenge Demo.alice Demo.empty_world) in
  let twice := snd (issueChallenge second Demo.alice once) in
  fst (RedisService.get true 1700000300002 ("nonce:" +:+ Demo.alice) once)
  = Done (Some (Text "4fzyo82mvyr")) ∧
  fst (RedisService.get true 1700000300003 ("nonce:" +:+ Demo.alice) once) = Done None ∧
  fst (RedisService.get true 1700000300003 ("nonce:" +:+ Demo.alice) twice)
  = Done (Some (Text "9k2c0x7hq1b")).
Proof.
  intros second once twice.
  pose proof (fun now => nonce_lifetime Scenario.challenge second Demo.alice Demo.empty_world
                           now eq_refl eq_refl eq_refl) as H.
  split; [exact (proj1 (H 1700000300002))|].
  split; [exact (proj1 (H 1700000300003)) | exact (proj2 (H 1700000300003))].
Defined.

Lemma session_id_format_witness :
  Str.all Str.is_word (generateSessionId 1700000001003 "0.4fzyo82mvyr") = true.
Proof.
  destruct (session_id_format 1700000001003 "0.4fzyo82mvyr") as (tail & _ & _ & _ & H);
    [vm_compute; discriminate | reflexivity | exact H].
Defined.


Lemma session_reads_back_witness :
  fst (DatabaseService.getSession true (Demo.now + 604800002) Demo.sid
         (snd Scenario.first_connect))
  = Done (Some (DatabaseService.mkJoin
                  (mkSession Demo.sid 1 Demo.alice (Demo.now + 604800003))
                  Demo.alice None)) ∧
  fst (DatabaseService.getSession true (Demo.now + 604800003) Demo.sid
         (snd Scenario.first_connect)) = Done None.
Proof.
  pose proof (session_reads_back Demo.verifyMessage Demo.JWT_SECRET (Demo.env_at Demo.now)
                Demo.fresh_request Demo.empty_world Scenario.first_ok) as H.
  split.
  - exact (H (Demo.now + 604800002) empty_world_consistent first_connect_ok).
  - exact (H (Demo.now + 604800003) empty_world_consistent first_connect_ok).
Defined.

Lemma session_revoked_witness :
  let after := disconnect Scenario.stores_up (Some Demo.sid) (snd Scenario.first_connect) in
  fst after = Json "Disconnected successfully" ∧
  api_sessions (snd after) = [] ∧
  fst (RedisService.getCachedUserSession true Demo.now Demo.sid (snd after)) = Done None.
Proof.
  intros after.
  destruct (session_revoked Demo.verifyMessage Demo.JWT_SECRET (Demo.env_at Demo.now)
              Scenario.stores_up Demo.fresh_request Demo.empty_world Scenario.first_ok
              first_connect_ok eq_refl eq_refl) as (H1 & H2 & H3).
  split; [exact H1|]. split; [exact H2 | exact (proj2 (H3 Demo.now))].
Defined.

Lemma cache_outlives_failed_delete_witness :
  let after := disconnect Scenario.redis_down (Some Demo.sid) (snd Scenario.first_connect) in
  fst after = Json "Disconnected successfully" ∧
  fst (DatabaseService.getSession true (Demo.now + 60000) Demo.sid (snd after)) = Done None ∧
  fst (RedisService.getCachedUserSession true (Demo.now + 60000) Demo.sid (snd after))
  = Done (Some (Object (mkPayload 1 Demo.alice None))).
Proof.
  exact (cache_outlives_failed_delete Demo.verifyMessage Demo.JWT_SECRET
           (Demo.env_at Demo.now) Scenario.redis_down Demo.fresh_request Demo.empty_world
           Scenario.first_ok (Demo.now + 60000) first_connect_ok eq_refl eq_refl eq_refl
           eq_refl).
Defined.

Lemma refresh_token_lifetime_witness :
  let disconnected :=
    snd (disconnect Scenario.stores_up (Some Demo.sid) (snd Scenario.first_connect)) in
  (∃ user,
     user_id user = 1 ∧
     fst (refresh Demo.JWT_SECRET
            (mkRefreshEnv (Demo.now + 86400000) true (Demo.now + 86400001))
            (ok_refreshToken Scenario.first_ok) disconnected)
     = Json (accessTokenFor Demo.JWT_SECRET (Demo.now + 86400001) user)) ∧
  fst (refresh Demo.JWT_SECRET (mkRefreshEnv (Demo.now + 604800000) true (Demo.now + 604800001))
         (ok_refreshToken Scenario.first_ok) disconnected)
  = Error 401 "Invalid refresh token" "INVALID_REFRESH_TOKEN".
Proof.
  intros disconnected.
  pose proof (fun renv H =>
    refresh_token_lifetime Demo.verifyMessage Demo.JWT_SECRET (Demo.env_at Demo.now)
      Scenario.stores_up renv Demo.fresh_request Demo.empty_world Scenario.first_ok
      first_connect_ok H) as L.
  split.
  - destruct (L (mkRefreshEnv (Demo.now + 86400000) true (Demo.now + 86400001)) eq_refl)
      as (user & Hid & _ & H).
    exists user. split; [exact Hid|].
    rewrite (H disconnected (or_intror eq_refl)). reflexivity.
  - destruct (L (mkRefreshEnv (Demo.now + 604800000) true (Demo.now + 604800001)) eq_refl)
      as (user & _ & _ & H).
    rewrite (H disconnected (or_intror eq_refl)). reflexivity.
Defined.

Lemma profile_accepts_both_tokens_witness :
  let a_day_later := mkProfileEnv (Demo.now + 86400000) true in
  (∃ reply, fst (profile Demo.JWT_SECRET a_day_later
                   (Some (ok_refreshToken Scenario.first_ok)) (snd Scenario.first_connect))
            = Json reply ∧ profile_user reply = ok_user Scenario.first_ok) ∧
  fst (profile Demo.JWT_SECRET a_day_later
         (Some (ok_accessToken Scenario.first_ok)) (snd Scenario.first_connect))
  = Error 401 "Invalid token" "INVALID_TOKEN".
Proof.
  intros a_day_later.
  destruct (profile_accepts_both_tokens Demo.verifyMessage Demo.JWT_SECRET
              (Demo.env_at Demo.now) a_day_later Demo.fresh_request Demo.empty_world
              Scenario.first_ok first_connect_ok eq_refl) as (_ & Hrefresh & Haccess & _).
  split.
  - destruct Hrefresh as (reply & E & Hu); [vm_compute; reflexivity|].
    exists reply. split; [|exact Hu].
    change (snd Scenario.first_connect)
      with (snd (connect Demo.verifyMessage Demo.JWT_SECRET (Demo.env_at Demo.now)
                   Demo.fresh_request Demo.empty_world)).
    rewrite E. reflexivity.
  - change (snd Scenario.first_connect)
      with (snd (connect Demo.verifyMessage Demo.JWT_SECRET (Demo.env_at Demo.now)
                   Demo.fresh_request Demo.empty_world)).
    rewrite Haccess; [reflexivity | vm_compute; discriminate].
Defined.

Lemma reconnect_same_identity_witness :
  let again := connect Demo.verifyMessage Demo.JWT_SECRET (Demo.env_at (Demo.now + 1000))
                 Scenario.named_request (snd Scenario.first_connect) in
  ∃ ok2,
    fst again = Json ok2 ∧
    view_id (ok_user ok2) = 1 ∧
    view_username (ok_user ok2) = Some "alice" ∧
    ok_sessionId ok2 ≠ Demo.sid ∧
    length (users (snd again)) = 1%nat.
Proof.
  intros again.
  pose (ok2 := connect_ok Demo.JWT_SECRET (Demo.env_at (Demo.now + 1000))
                 (mkUser 1 Demo.alice (Some "alice") None "{}" (Demo.now + 1)
                    (Demo.now + 1001))).
  assert (fst again = Json ok2) as Hok2 by reflexivity.
  destruct (reconnect_same_identity Demo.verifyMessage Demo.JWT_SECRET (Demo.env_at Demo.now)
              (Demo.env_at (Demo.now + 1000)) Demo.fresh_request Scenario.named_request
              Demo.empty_world Scenario.first_ok ok2 first_connect_ok Hok2 eq_refl)
    as (Hid & Hsid & Hlen & _ & Hname & _).
  exists ok2. split; [exact Hok2|]. split; [exact Hid|].
  split; [exact (Hname "alice" eq_refl)|]. split; [exact Hsid | exact Hlen].
Defined.

Lemma distinct_strings_distinct_identities_witness :
  let again := connect Demo.verifyMessage Demo.JWT_SECRET (Demo.env_at (Demo.now + 1000))
                 Scenario.lower_request (snd Scenario.first_connect) in
  same_address Demo.alice Scenario.alice_lower = true ∧
  ∃ ok2,
    fst again = Json ok2 ∧
    view_id (ok_user Scenario.first_ok) ≠ view_id (ok_user ok2) ∧
    view_walletAddress (ok_user ok2) = Scenario.alice_lower.
Proof.
  intros again. split; [reflexivity|].
  pose (ok2 := connect_ok Demo.JWT_SECRET (Demo.env_at (Demo.now + 1000))
                 (mkUser 2 Scenario.alice_lower None None "{}" (Demo.now + 1001)
                    (Demo.now + 1001))).
  assert (fst again = Json ok2) as Hok2 by reflexivity.
  destruct (distinct_strings_distinct_identities Demo.verifyMessage Demo.JWT_SECRET
              (Demo.env_at Demo.now) (Demo.env_at (Demo.now + 1000)) Demo.fresh_request
              Scenario.lower_request Demo.empty_world Scenario.first_ok ok2
              empty_world_consistent first_connect_ok Hok2)
    as (Hid & _ & Hw); [discriminate|].
  exists ok2. split; [exact Hok2|]. split; [exact Hid | exact Hw].
Defined.


Lemma cleanup_keeps_live_sessions_witness :
  let cleaned :=
    snd (DatabaseService.cleanupExpiredSessions true (Demo.now + 604800003)
           (snd Scenario.first_connect)) in
  length (api_sessions cleaned) = 1%nat ∧
  fst (DatabaseService.getSession true (Demo.now + 604800003) Demo.sid cleaned) = Done None.
Proof.
  intros cleaned.
  destruct (cleanup_keeps_live_sessions (Demo.now + 604800003) (snd Scenario.first_connect))
    as (Hget & _).
  split; [reflexivity|].
  unfold cleaned. rewrite (Hget (Demo.now + 604800003) Demo.sid); [reflexivity|].
  vm_compute; discriminate.
Defined.

Lemma preferences_then_profile_witness :
  let token := Some (accessTokenFor Demo.JWT_SECRET Demo.now Demo.alice_row) in
  let env := mkPreferencesEnv (Demo.now + 1000) true (Demo.now + 1001) in
  let after := preferences Demo.JWT_SECRET Demo.jsonb env token (Some Demo.theme_document)
                 Demo.alice_world in
  (fst after = Json Demo.theme_document ∧
   fst (profile Demo.JWT_SECRET (mkProfileEnv (Demo.now + 2000) true) token (snd after))
   = Json (mkProfileOk
             (mkView 1 Demo.alice (Some "alice") (Some "alice@example.org")
                Demo.theme_document)
             1700000000000 (Demo.now + 1001))) ∧
  preferences Demo.JWT_SECRET Demo.jsonb env token (Some Demo.nul_document) Demo.alice_world
  = (Error 500 "Internal server error" "INTERNAL_ERROR", Demo.alice_world).
Proof.
  intros token env after.
  pose proof (fun text =>
    preferences_then_profile Demo.JWT_SECRET Demo.jsonb env
      (mkProfileEnv (Demo.now + 2000) true) Demo.now
      (jwt.mkClaims 1 Demo.alice (Some (Some "alice"))) 3600 text Demo.alice_world
      ltac:(vm_compute; reflexivity) ltac:(vm_compute; reflexivity) eq_refl eq_refl) as H.
  split.
  - pose proof (H Demo.theme_document) as Hcase.
    assert (Demo.jsonb Demo.theme_document = Some Demo.theme_document) as Haccepted
      by reflexivity.
    rewrite Haccepted in Hcase. destruct Hcase as [Hcase _].
    change (DatabaseService.find_user _ (users Demo.alice_world))
      with (Some Demo.alice_row) in Hcase.
    exact Hcase.
  - exact (H Demo.nul_document).
Defined.

Lemma routes_keep_constraints_witness :
  consistent (snd Scenario.first_connect) ∧
  consistent (snd (disconnect Scenario.stores_up (Some Demo.sid)
                     (snd Scenario.first_connect))).
Proof.
  split.
  - exact (proj1 (routes_keep_constraints Demo.empty_world empty_world_consistent)
             Demo.verifyMessage Demo.JWT_SECRET (Demo.env_at Demo.now) Demo.fresh_request).
  - apply (routes_keep_constraints (snd Scenario.first_connect)).
    exact (proj1 (routes_keep_constraints Demo.empty_world empty_world_consistent)
             Demo.verifyMessage Demo.JWT_SECRET (Demo.env_at Demo.now) Demo.fresh_request).
Defined.

Lemma set_then_get_witness :
  let forever := RedisService.set true 1000 "k" (Text "v") (Some 0) Demo.empty_world in
  let minute := RedisService.set true 1000 "k" (Text "v") (Some 60) Demo.empty_world in
  fst (RedisService.get true 999999999 "k" (snd forever)) = Done (Some (Text "v")) ∧
  fst (RedisService.get true 61000 "k" (snd minute)) = Done (Some (Text "v")) ∧
  fst (RedisService.get true 61001 "k" (snd minute)) = Done None ∧
  RedisService.set true 1000 "k" (Text "v") (Some (-5)) Demo.empty_world
  = (Done false, Demo.empty_world).
Proof.
  intros forever minute.
  pose proof (fun ttl t => proj1 (proj2 (set_then_get 1000 "k" (Text "v") ttl
                                           Demo.empty_world t))) as H.
  split; [exact (proj2 (proj1 (proj2 (H (Some 0) 999999999)) eq_refl))|].
  split; [exact (proj2 (proj1 (H (Some 60) 61000) eq_refl))|].
  split; [exact (proj2 (proj1 (H (Some 60) 61001) eq_refl))|].
  exact (proj2 (proj2 (H (Some (-5)) 0)) eq_refl).
Defined.

Lemma rate_limit_counts_witness :
  let run := increments [Scenario.call 1000; Scenario.call 2000; Scenario.call 3000]
               "rate:alice" None Demo.empty_world in
  fst run = [Done 1; Done 2; Done 3] ∧
  fst (RedisService.getRateLimit true 3601000 "rate:alice" (snd run)) = Done (Some 3) ∧
  fst (RedisService.getRateLimit true 3601001 "rate:alice" (snd run)) = Done (Some 0).
Proof.
  intros run.
  destruct (rate_limit_counts (Scenario.call 1000) [Scenario.call 2000; Scenario.call 3000]
              "rate:alice" None Demo.empty_world) as (Hres & Hget);
    [exact I | reflexivity | reflexivity | reflexivity
    | repeat constructor | vm_compute; reflexivity |].
  split; [exact Hres|].
  split; [exact (proj1 (Hget 3601000)) | exact (proj1 (Hget 3601001))].
Defined.

Lemma rate_limit_never_resets_witness :
  let run := increments [Scenario.call_without_expire 1000; Scenario.call 2000;
                         Scenario.call 3000] "rate:alice" None Demo.empty_world in
  fst run = [Done 0; Done 2; Done 3] ∧
  fst (RedisService.getRateLimit true 999999999999 "rate:alice" (snd run)) = Done (Some 3).
Proof.
  intros run.
  destruct (rate_limit_never_resets (Scenario.call_without_expire 1000)
              [Scenario.call 2000; Scenario.call 3000] "rate:alice" None Demo.empty_world)
    as (Hres & Hget);
    [exact I | reflexivity | reflexivity | repeat constructor | vm_compute; reflexivity |].
  split; [exact Hres | exact (proj1 (Hget 999999999999))].
Defined.

Lemma access_token_renews_itself_witness :
  let hour := 3000000 in
  renew Demo.JWT_SECRET
    [mkRefreshEnv (Demo.now + hour) true (Demo.now + hour);
     mkRefreshEnv (Demo.now + 2 * hour) true (Demo.now + 2 * hour);
     mkRefreshEnv (Demo.now + 3 * hour) true (Demo.now + 3 * hour)]
    (accessTokenFor Demo.JWT_SECRET Demo.now Demo.alice_row) Demo.alice_world
  = (Json (accessTokenFor Demo.JWT_SECRET (Demo.now + 3 * hour) Demo.alice_row),
     Demo.alice_world).
Proof.
  intros hour.
  apply (access_token_renews_itself Demo.JWT_SECRET
           [mkRefreshEnv (Demo.now + hour) true (Demo.now + hour);
            mkRefreshEnv (Demo.now + 2 * hour) true (Demo.now + 2 * hour)]
           (mkRefreshEnv (Demo.now + 3 * hour) true (Demo.now + 3 * hour))
           Demo.now (jwt.mkClaims 1 Demo.alice (Some (Some "alice"))) Demo.alice_world
           Demo.alice_row eq_refl).
  vm_compute. repeat split.
Defined.
